(** * USDA-LLM-Model: a shallow embedding of the comment pipeline

    The development follows the three scripts of the repository:

    - [API_Document_CommentsDownloader.py]: the identifier resolver and the
      paginated ingestor ([Downloader]);
    - [LLM_Model_FINAL.py]: the text extractor, the structured extractor
      and the comment processor ([LLMModel]);
    - [comment_clustering.py]: the issue clusterer ([Clustering]).

    Python strings are Rocq [string]s (characters are code points below
    256), dictionaries used as maps are [gmap]s and sets are [gset]s,
    Python exceptions are the [Raise] results of a small error monad, and
    a loop that mutates a variable passes it as an accumulator.  Every
    external collaborator (the repository API, pdfplumber, the OCR engine,
    the chat service, the filesystem, [json.loads]) is a record of
    functions given to the code as an argument: the theorems hold for
    each behaviour of the collaborator. *)

From Stdlib Require Import ZArith Ascii.
From stdpp Require Import base gmap strings list sorting pretty.

Local Open Scope char_scope.
Local Open Scope stdpp_scope.

(** ** Python strings *)

Module PyStr.

(** [all p s]: every character of [s] satisfies [p]. *)
Fixpoint all (p : ascii → bool) (s : string) : bool :=
  match s with
  | "" => true
  | String c s' => p c && all p s'
  end.

(** [str.startswith]: [startswith pre s] is [s.startswith(pre)]. *)
Fixpoint startswith (pre s : string) : bool :=
  match pre, s with
  | "", _ => true
  | String a pre', String b s' => Ascii.eqb a b && startswith pre' s'
  | String _ _, "" => false
  end.

(** The operator [sub in s] on strings: [contains sub s]. *)
Fixpoint contains (sub s : string) : bool :=
  startswith sub s ||
  match s with
  | "" => false
  | String _ s' => contains sub s'
  end.

(** [str.endswith]: [endswith suf s] is [s.endswith(suf)]. *)
Fixpoint endswith (suf s : string) : bool :=
  String.eqb suf s ||
  match s with
  | "" => false
  | String _ s' => endswith suf s'
  end.

(** [str.lower] on the code points below 256: the letters [A-Z], and
    the upper-case letters of Latin-1 ([À] to [Þ], [×] apart). *)
Definition lower_char (c : ascii) : ascii :=
  let n := N_of_ascii c in
  if (((65 <=? n) && (n <=? 90))
      || ((192 <=? n) && (n <=? 222) && negb (n =? 215)))%N
  then ascii_of_N (n + 32) else c.

Fixpoint lower (s : string) : string :=
  match s with
  | "" => ""
  | String c s' => String (lower_char c) (lower s')
  end.

(** Python's [str.isspace] on the code points below 256. *)
Definition is_space (c : ascii) : bool :=
  let n := N_of_ascii c in
  (((9 <=? n) && (n <=? 13)) || ((28 <=? n) && (n <=? 32))
   || (n =? 133) || (n =? 160))%N.

Fixpoint lstrip (s : string) : string :=
  match s with
  | "" => ""
  | String c s' => if is_space c then lstrip s' else s
  end.

Fixpoint rstrip (s : string) : string :=
  match s with
  | "" => ""
  | String c s' =>
      match rstrip s' with
      | "" => if is_space c then "" else String c ""
      | r => String c r
      end
  end.

(** [str.strip] with no argument. *)
Definition strip (s : string) : string := rstrip (lstrip s).

(** [sep.join(parts)] *)
Fixpoint join (sep : string) (parts : list string) : string :=
  match parts with
  | [] => ""
  | [x] => x
  | x :: rest => x +:+ sep +:+ join sep rest
  end.

(** [s[:n]] for a non-negative [n]. *)
Fixpoint take (n : nat) (s : string) : string :=
  match n, s with
  | S n', String c s' => String c (take n' s')
  | _, _ => ""
  end.

(** The concatenation of [parts], as [join] with an empty separator. *)
Definition concat (parts : list string) : string :=
  foldr String.append "" parts.

(** [s] does not start with a blank. *)
Definition no_leading_space (s : string) : Prop :=
  match s with
  | "" => True
  | String c _ => is_space c = false
  end.


(** [s.replace(old, new)] for a non-empty [old]: the occurrences of [old]
    are taken from left to right and do not overlap; [skip] counts the
    characters of the occurrence being replaced that are still to pass. *)
Fixpoint replace_go (old new : string) (skip : nat) (s : string) : string :=
  match s with
  | "" => ""
  | String c s' =>
      match skip with
      | S skip' => replace_go old new skip' s'
      | 0 =>
          if startswith old s
          then new +:+ replace_go old new (String.length old - 1) s'
          else String c (replace_go old new 0 s')
      end
  end.

Definition replace_all (old new s : string) : string :=
  replace_go old new 0 s.

End PyStr.

(** ** Python exceptions and the error monad *)

(** The exception classes the three scripts raise or catch.
  [JSONDecodeError] is a subclass of [ValueError]; every class here is a
  subclass of [Exception]. *)
Inductive exn : Type :=
  | ValueError
  | JSONDecodeError
  | AttributeError
  | KeyError
  | TypeError
  | OtherError (message : string).

Inductive exn_class : Type :=
  | ClsException
  | ClsValueError
  | ClsJSONDecodeError
  | ClsAttributeError
  | ClsKeyError
  | ClsTypeError.

(** [isinstance(e, cls)] *)
Definition exn_isinstance (e : exn) (cls : exn_class) : bool :=
  match cls, e with
  | ClsException, _ => true
  | ClsValueError, (ValueError | JSONDecodeError) => true
  | ClsJSONDecodeError, JSONDecodeError => true
  | ClsAttributeError, AttributeError => true
  | ClsKeyError, KeyError => true
  | ClsTypeError, TypeError => true
  | _, _ => false
  end.

Inductive result (A : Type) : Type :=
  | Ok (a : A)
  | Raise (e : exn).
Arguments Ok {A} a.
Arguments Raise {A} e.

#[global] Instance result_ret : MRet result := λ A a, Ok a.
#[global] Instance result_bind : MBind result := λ A B k m,
  match m with
  | Ok a => k a
  | Raise e => Raise e
  end.

(** [try: body  except C1: h1  except C2: h2 ...]: when the body raises,
    the first clause one of whose classes the exception is an instance of
    handles it; with no such clause the exception propagates.  An
    exception raised by a handler is not handled by the later clauses. *)
Fixpoint handle {A} (e : exn)
    (clauses : list (list exn_class * (exn → result A))) : result A :=
  match clauses with
  | [] => Raise e
  | (classes, handler) :: rest =>
      if existsb (exn_isinstance e) classes then handler e
      else handle e rest
  end.

Definition try_except {A} (body : result A)
    (clauses : list (list exn_class * (exn → result A))) : result A :=
  match body with
  | Ok a => Ok a
  | Raise e => handle e clauses
  end.

Definition raises {A} (m : result A) : Prop := ∃ e, m = Raise e.

(** ** Regular expressions

  The fragment of Python's [re] the scripts use: a pattern is a sequence
  of literals and greedy repetitions of a character class.  Matching is
  by backtracking, as in [re]: a repetition first takes as many
  characters as it can and gives them back one at a time while the rest
  of the pattern fails. *)

Module Regex.

Inductive atom : Type :=
  | Lit (s : string)            (* the characters of [s] *)
  | Plus (cls : ascii → bool)   (* [cls]+ *)
  | Star (cls : ascii → bool).  (* [cls]* *)

Fixpoint match_lit (lit s : string) : option string :=
  match lit, s with
  | "", _ => Some s
  | String a lit', String b s' =>
      if Ascii.eqb a b then match_lit lit' s' else None
  | String _ _, "" => None
  end.

(** Greedy [cls]* followed by the continuation [k]: the text taken by the
    repetition, and what [k] matched after it. *)
Fixpoint star_then (cls : ascii → bool)
    (k : string → option (list string)) (s : string)
    : option (string * list string) :=
  let stop := pair "" <$> k s in
  match s with
  | "" => stop
  | String c s' =>
      if cls c then
        match star_then cls k s' with
        | Some (m, ms) => Some (String c m, ms)
        | None => stop
        end
      else stop
  end.

(** [match_atoms r s]: the pattern [r] matched at the start of [s]; the
    result lists the text matched by each atom. *)
Fixpoint match_atoms (r : list atom) : string → option (list string) :=
  match r with
  | [] => λ _, Some []
  | Lit lit :: r' => λ s,
      match match_lit lit s with
      | Some rest => cons lit <$> match_atoms r' rest
      | None => None
      end
  | Star cls :: r' => λ s,
      match star_then cls (match_atoms r') s with
      | Some (m, ms) => Some (m :: ms)
      | None => None
      end
  | Plus cls :: r' => λ s,
      match s with
      | "" => None
      | String c s' =>
          if cls c then
            match star_then cls (match_atoms r') s' with
            | Some (m, ms) => Some (String c m :: ms)
            | None => None
            end
          else None
      end
  end.

(** [re.search(r, s)]: the match at the leftmost position that has one. *)
Fixpoint search (r : list atom) (s : string) : option (list string) :=
  match match_atoms r s with
  | Some ms => Some ms
  | None =>
      match s with
      | "" => None
      | String _ s' => search r s'
      end
  end.

(** What an atom may match. *)
Definition piece_ok (a : atom) (p : string) : Prop :=
  match a with
  | Lit lit => p = lit
  | Plus cls => p ≠ "" ∧ PyStr.all cls p = true
  | Star cls => PyStr.all cls p = true
  end.

End Regex.

(** ** API_Document_CommentsDownloader.py *)

Module Downloader.
Import Regex.

(** *** Identifier resolver *)

(** The class [[A-Z0-9-]]. *)
Definition id_char (c : ascii) : bool :=
  let n := N_of_ascii c in
  (((65 <=? n) && (n <=? 90)) || ((48 <=? n) && (n <=? 57)) || (n =? 45))%N.

(** The class [\d]. *)
Definition digit (c : ascii) : bool :=
  let n := N_of_ascii c in ((48 <=? n) && (n <=? 57))%N.

(** [r'document/([A-Z0-9-]+-\d+)'] *)
Definition document_re : list atom :=
  [Lit "document/"; Plus id_char; Lit "-"; Plus digit].

(** [r'docket/([A-Z0-9-]+)'] *)
Definition docket_re : list atom :=
  [Lit "docket/"; Plus id_char].

(** [match.group(1)]: in both patterns the group is everything after the
    leading literal. *)
Definition group1 (pieces : list string) : string :=
  PyStr.concat (tail pieces).

(** The pair the function returns: each component is a string or
    [None]. *)
Definition extract_docket_id_or_document_id (link : string)
    : option string * option string :=
  let invalid := (None, None) in
  if PyStr.contains "document" link then
    match search document_re link with
    | Some m => (Some (group1 m), Some "document")
    | None => invalid
    end
  else if PyStr.contains "docket" link then
    match search docket_re link with
    | Some m => (Some (group1 m), Some "docket")
    | None => invalid
    end
  else invalid.

(** The two link shapes, stated on the text of the link. *)
Definition document_shape (link : string) : Prop :=
  ∃ pre x d post,
    link = pre +:+ "document/" +:+ x +:+ "-" +:+ d +:+ post ∧
    x ≠ "" ∧ PyStr.all id_char x = true ∧
    d ≠ "" ∧ PyStr.all digit d = true.

Definition docket_shape (link : string) : Prop :=
  ∃ pre x post,
    link = pre +:+ "docket/" +:+ x +:+ post ∧
    x ≠ "" ∧ PyStr.all id_char x = true.

Definition malformed (link : string) : Prop :=
  ¬ document_shape link ∧ ¬ docket_shape link.

(** What may follow the identifier: the end of the link, or a character
    that cannot continue it. *)
Definition ends_id (post : string) : bool :=
  match post with
  | "" => true
  | String c _ => negb (id_char c)
  end.

(** *** Paginated ingestor *)

(** An entry of a page of the comment listing: its ["links"]["self"], when
    it has both keys. *)
Record summary : Type := {
  self_link : option string;
}.

(** The full record of a comment: its ["id"] (["" ] when missing) and
    its ["attributes"]["comment"], which may be [null]. *)
Record full_comment : Type := {
  full_id : string;
  full_text : option string;
}.

Record attachment : Type := {
  url : string;
  file_path : option string;
}.

(** An entry of a PageFile. *)
Record cleaned_comment : Type := {
  comment_id : string;
  text : option string;
  attachments : list attachment;
}.

(** The repository API, as the fetch functions see it.  A listing or a
    full record that cannot be used (a status other than 200, or an answer
    that is empty or has no ["data"]) is [None].  The attachments of a
    comment are [None] when the request fails; each attachment comes with
    its ["fileFormats"] when that is a list, and each format with its
    ["fileUrl"] when it has a non-empty one.  A file request gives [None]
    when its status is not 200, and otherwise the [Content-Type] header of
    the answer, if any. *)
Record api : Type := {
  get_comments_by_object_id :
    string → nat → nat → option (list summary);
  fetch_full_comment_data : string → option full_comment;
  attachments_of : string → option (list (option (list (option string))));
  requests_get_file : string → option (option string);
}.

Definition get_extension_from_content_type (content_type : option string)
    : option string :=
  match content_type with
  | Some "application/pdf" => Some "pdf"
  | Some "image/jpeg" => Some "jpg"
  | Some "image/png" => Some "png"
  | Some "application/zip" => Some "zip"
  | _ => None
  end.

(** The path the file is saved under, or [None] when the request
    failed. *)
Definition download_file (srv : api) (url comment_id : string)
    (attachment_index : nat) : option string :=
  match requests_get_file srv url with
  | Some content_type =>
      let extension :=
        default "dat" (get_extension_from_content_type content_type) in
      Some ("./Downloads/USDA_JSON/attachments/" +:+ comment_id +:+ "_"
            +:+ pretty attachment_index +:+ "." +:+ extension)
  | None => None
  end.

(** The loop over [file_formats]. *)
Fixpoint fetch_formats (srv : api) (comment_id : string)
    (attachment_index : nat) (file_formats : list (option string))
    (attachments_metadata : list attachment) : list attachment :=
  match file_formats with
  | [] => attachments_metadata
  | Some file_url :: rest =>
      let file_path :=
        download_file srv file_url comment_id attachment_index in
      fetch_formats srv comment_id attachment_index rest
        (attachments_metadata
           ++ [{| url := file_url; file_path := file_path |}])
  | None :: rest =>
      fetch_formats srv comment_id attachment_index rest attachments_metadata
  end.

(** The loop over [enumerate(attachments)]. *)
Fixpoint fetch_attachments_from (srv : api) (comment_id : string)
    (attachment_index : nat)
    (attachments : list (option (list (option string))))
    (attachments_metadata : list attachment) : list attachment :=
  match attachments with
  | [] => attachments_metadata
  | Some file_formats :: rest =>
      fetch_attachments_from srv comment_id (S attachment_index) rest
        (fetch_formats srv comment_id attachment_index file_formats
           attachments_metadata)
  | None :: rest =>
      fetch_attachments_from srv comment_id (S attachment_index) rest
        attachments_metadata
  end.

Definition fetch_attachments (srv : api) (comment_id : string)
    : list attachment :=
  match attachments_of srv comment_id with
  | Some attachments => fetch_attachments_from srv comment_id 0 attachments []
  | None => []
  end.

(** [total_comments]: the integer typed by the user, or [float("inf")]
    for ["all"]. *)
Inductive limit : Type :=
  | Limit (n : Z)
  | All.

(** [downloaded_comments >= total_comments] *)
Definition reached (downloaded_comments : nat) (total_comments : limit)
    : bool :=
  match total_comments with
  | Limit n => bool_decide (n ≤ Z.of_nat downloaded_comments)%Z
  | All => false
  end.

(** A file written by [save_comments_incrementally]. *)
Record page_file : Type := {
  page : nat;
  entries : list cleaned_comment;
}.

(** The [for] loop over the entries of a page. *)
Fixpoint collect_page (srv : api) (total_comments : limit)
    (data : list summary) (cleaned_comments : list cleaned_comment)
    (downloaded_comments : nat) : list cleaned_comment * nat :=
  match data with
  | [] => (cleaned_comments, downloaded_comments)
  | comment :: rest =>
      if reached downloaded_comments total_comments
      then (cleaned_comments, downloaded_comments)
      else
        match self_link comment ≫= fetch_full_comment_data srv with
        | Some full =>
            let cleaned_comment :=
              {| comment_id := full_id full;
                 text := full_text full;
                 attachments := fetch_attachments srv (full_id full) |} in
            collect_page srv total_comments rest
              (cleaned_comments ++ [cleaned_comment])
              (S downloaded_comments)
        | None =>
            collect_page srv total_comments rest
              cleaned_comments downloaded_comments
        end
  end.

(** The state of a run: the pages requested from the listing, the files
    written, and the counter. *)
Record ingestion : Type := {
  requested : list nat;
  written : list page_file;
  downloaded : nat;
}.

Definition page_size : nat := 250.

(** The [while True] loop, with [fuel] turns at most: [None] when they
    do not suffice. *)
Fixpoint fetch_pages (fuel : nat) (srv : api) (object_id : string)
    (total_comments : limit) (page_number : nat) (st : ingestion)
    : option ingestion :=
  match fuel with
  | 0 => None
  | S fuel' =>
      let st := {| requested := requested st ++ [page_number];
                   written := written st;
                   downloaded := downloaded st |} in
      match get_comments_by_object_id srv object_id page_size page_number with
      | None | Some [] => Some st
      | Some data =>
          let '(cleaned_comments, downloaded_comments) :=
            collect_page srv total_comments data [] (downloaded st) in
          let st := {| requested := requested st;
                       written := written st ++
                         [{| page := page_number;
                             entries := cleaned_comments |}];
                       downloaded := downloaded_comments |} in
          if reached downloaded_comments total_comments
             || bool_decide (length data < page_size)
          then Some st
          else fetch_pages fuel' srv object_id total_comments
                 (S page_number) st
      end
  end.

Definition fetch_all_comments (fuel : nat) (srv : api) (object_id : string)
    (total_comments : limit) : option ingestion :=
  fetch_pages fuel srv object_id total_comments 1
    {| requested := []; written := []; downloaded := 0 |}.

(** The number of entries over the files written. *)
Definition total_entries (files : list page_file) : nat :=
  sum_list_with (λ file, length (entries file)) files.

(** A repository that holds the comments [available] and lists them in
    pages, [size] to a page, numbered from 1. *)
Definition listing (available : list summary) (size number : nat)
    : list summary :=
  take size (drop (size * (number - 1)) available).

(** [min(N, available)] for the limit of a run. *)
Definition limit_min (total_comments : limit) (available : nat) : Z :=
  match total_comments with
  | Limit n => Z.min n (Z.of_nat available)
  | All => Z.of_nat available
  end.

(** How many of [len] entries in a row are taken when the counter stands
    at [downloaded_comments]. *)
Definition quota (total_comments : limit) (downloaded_comments len : nat)
    : nat :=
  match total_comments with
  | Limit n => len `min` Z.to_nat (n - Z.of_nat downloaded_comments)
  | All => len
  end.

(** Every entry has a link and its full record can be fetched. *)
Definition all_fetched (srv : api) (data : list summary) : Prop :=
  Forall (λ s, is_Some (self_link s ≫= fetch_full_comment_data srv)) data.

(** [filename.replace(".json", f"_page_{page_number}.json")], the name
    of the file [save_comments_incrementally] writes. *)
Definition page_filename (filename : string) (page_number : nat) : string :=
  PyStr.replace_all ".json" ("_page_" +:+ pretty page_number +:+ ".json")
    filename.

(** What [main] asks of the outside: the object id of a document ([None]
    when the request fails or the answer has no usable ["objectId"]), and
    Python's [int] on a string. *)
Record console : Type := {
  fetch_object_id_from_document : string → option string;
  py_int : string → result Z;
}.

(** The answer to the second prompt, as [main] reads it. *)
Definition read_total (env : console) (answer : string) : result limit :=
  let total_comments := PyStr.lower (PyStr.strip answer) in
  if String.eqb total_comments "all" then Ok All
  else n ← py_int env total_comments; Ok (Limit n).

(** How [main] ends when it does not raise: without a call of
    [fetch_all_comments], or with the run it started, for an object id, a
    file name and a limit. *)
Inductive main_outcome : Type :=
  | NoRun
  | Ran (object_id filename : string) (total_comments : limit)
        (run : option ingestion).

Definition main (fuel : nat) (srv : api) (env : console)
    (link answer : string) : result main_outcome :=
  let '(id_value, id_type) := extract_docket_id_or_document_id link in
  match id_value with
  | None | Some "" => Ok NoRun
  | Some id_value =>
      total_comments ← read_total env answer;
      if bool_decide (id_type = Some "document") then
        match fetch_object_id_from_document env id_value with
        | Some object_id =>
            let filename :=
              "./Downloads/USDA_JSON/comments_" +:+ id_value +:+ ".json" in
            Ok (Ran object_id filename total_comments
                  (fetch_all_comments fuel srv object_id total_comments))
        | None => Ok NoRun
        end
      else Ok NoRun
  end.

End Downloader.


(** ** JSON values

    What [json.loads] returns.  A dict is the list of its items, with
    distinct keys; a number is kept as its literal. *)

#[warnings="-register-all"]
Inductive json : Type :=
  | JNull
  | JBool (b : bool)
  | JNum (literal : string)
  | JStr (s : string)
  | JList (items : list json)
  | JDict (items : list (string * json)).

Fixpoint assoc (key : string) (items : list (string * json)) : option json :=
  match items with
  | [] => None
  | (k, v) :: rest => if String.eqb k key then Some v else assoc key rest
  end.

(** [d.get(key, default)]; only a dict has the method. *)
Definition py_get (d : json) (key : string) (fallback : json) : result json :=
  match d with
  | JDict items => Ok (default fallback (assoc key items))
  | _ => Raise AttributeError
  end.

(** [d[key]] *)
Definition py_index (d : json) (key : string) : result json :=
  match d with
  | JDict items =>
      match assoc key items with
      | Some v => Ok v
      | None => Raise KeyError
      end
  | _ => Raise TypeError
  end.

(** ** LLM_Model_FINAL.py *)

Module LLMModel.

Definition newline : string := String "010" "".

(** [USE_API] and [MAX_TOKENS] of the configuration block. *)
Definition USE_API : bool := true.
Definition MAX_TOKENS : N := 50000.

(** *** Text extractor *)

(** What pdfplumber does with a file: [pdfplumber.open] raises, or the
    pages are visited in order and [page.extract_text()] returns a string
    or [None], or raises, on each. *)
Inductive page_outcome : Type :=
  | PageText (page_text : option string)
  | PageRaises (e : exn).

Inductive plumber_outcome : Type :=
  | OpenRaises (e : exn)
  | Pages (pages : list page_outcome).

(** The two libraries on the files of the disk: pdfplumber, and
    [convert_from_path] followed by [pytesseract.image_to_string] on each
    image (an image is given by what the OCR engine answers on it). *)
Record pdf_libs : Type := {
  pdfplumber_open : string → plumber_outcome;
  convert_from_path : string → result (list (result string));
}.

(** The loop over [pdf.pages]: [text] is updated in place, so what the
    pages before a failing one gave stays in it. *)
Fixpoint plumber_pages (pages : list page_outcome) (text : string)
    : string * result () :=
  match pages with
  | [] => (text, Ok ())
  | PageText (Some page_text) :: rest =>
      if String.eqb page_text "" then plumber_pages rest text
      else plumber_pages rest (text +:+ page_text +:+ newline)
  | PageText None :: rest => plumber_pages rest text
  | PageRaises e :: _ => (text, Raise e)
  end.

(** The body of the first [try]. *)
Definition primary_pass (o : plumber_outcome) : string * result () :=
  match o with
  | OpenRaises e => ("", Raise e)
  | Pages pages => plumber_pages pages ""
  end.

(** The loop over the images of the second [try]. *)
Fixpoint ocr_images (images : list (result string)) (ocr_text : string)
    : result string :=
  match images with
  | [] => Ok ocr_text
  | image_to_string :: rest =>
      page ← image_to_string;
      ocr_images rest (ocr_text +:+ page +:+ newline)
  end.

(** The body of the second [try], up to [ocr_text]. *)
Definition ocr_pass (libs : pdf_libs) (pdf_path : string) : result string :=
  images ← convert_from_path libs pdf_path;
  ocr_images images "".

Definition OCR_FAILED : string := "Unknown (OCR failed)".
Definition PDF_UNREADABLE : string := "Unknown (PDF unreadable)".

(** A run of [extract_text_from_pdf]: whether [convert_from_path] was
    called, and what the function returned or raised. *)
Record extraction : Type := {
  ocr_called : bool;
  returned : result string;
}.

Definition extract_text_from_pdf_run (libs : pdf_libs) (pdf_path : string)
    : extraction :=
  let '(text, body) := primary_pass (pdfplumber_open libs pdf_path) in
  let last_line (text : string) : result string :=
    Ok (if String.eqb text "" then PDF_UNREADABLE else PyStr.strip text) in
  match try_except body [([ClsException], λ _, Ok ())] with
  | Raise e => {| ocr_called := false; returned := Raise e |}
  | Ok () =>
      if String.eqb (PyStr.strip text) "" then
        {| ocr_called := true;
           returned :=
             r ← try_except
                   (ocr_text ← ocr_pass libs pdf_path;
                    Ok (inl (PyStr.strip ocr_text)))
                   [([ClsException], λ _, Ok (inr OCR_FAILED))];
             match r with
             | inl text => last_line text
             | inr value => Ok value
             end |}
      else {| ocr_called := false; returned := last_line text |}
  end.

Definition extract_text_from_pdf (libs : pdf_libs) (pdf_path : string)
    : result string :=
  returned (extract_text_from_pdf_run libs pdf_path).

(** What the first [try] leaves in [text], and whether its body raised. *)
Definition primary_text (libs : pdf_libs) (pdf_path : string) : string :=
  (primary_pass (pdfplumber_open libs pdf_path)).1.

Definition primary_raises (libs : pdf_libs) (pdf_path : string) : Prop :=
  raises (primary_pass (pdfplumber_open libs pdf_path)).2.

(** *** Structured extractor *)

(** The dictionary [classify_comment_by_issue] returns. *)
Record attributes : Type := {
  who_type : json;
  who_name : json;
  what : json;
  why : json;
  issues : json;
  scientific_legal_support : json;
}.

(** The record of both [except] clauses. *)
Definition fallback : attributes := {|
  who_type := JStr "Unknown";
  who_name := JStr "Unknown";
  what := JStr "Unknown";
  why := JStr "Unknown";
  issues := JList [JStr "Needs manual review"];
  scientific_legal_support := JStr "No";
|}.

(** The record returned without a call when [USE_API] is off. *)
Definition sample : attributes := {|
  who_type := JStr "Test";
  who_name := JStr "Test Name";
  what := JStr "Test Request";
  why := JStr "Test Reason";
  issues := JList [JStr "Test Issue"];
  scientific_legal_support := JStr "No";
|}.

(** [r"\{[\s\S]*\}"]: the class [[\s\S]] holds every character. *)
Definition json_block_re : list Regex.atom :=
  [Regex.Lit "{"; Regex.Star (λ _, true); Regex.Lit "}"].

(** The response holds an opening brace with a closing brace after it. *)
Definition has_json_block (s : string) : Prop :=
  ∃ a b c, s = a +:+ "{" +:+ b +:+ "}" +:+ c.

Definition extract_json_block (text : string) : result string :=
  match Regex.search json_block_re text with
  | Some m => Ok (PyStr.concat m)
  | None => Raise ValueError
  end.

(** The chat service and the JSON decoder.  [chat] is given the two
    values the prompt is built from, the comment text and the attachment
    flag, and answers with [response.choices[0].message.content], which may
    be [None], or raises. *)
Record services : Type := {
  chat : string → bool → result (option string);
  json_loads : string → result json;
}.

Definition truncate (comment_text : string) : string :=
  if (MAX_TOKENS <? N.of_nat (String.length comment_text))%N
  then PyStr.take (N.to_nat MAX_TOKENS) comment_text +:+ " [TRUNCATED]"
  else comment_text.

Definition is_list (v : json) : bool :=
  match v with JList _ => true | _ => false end.

Definition classify_comment_by_issue (svc : services)
    (comment_text : string) (pdf_attached : bool) : result attributes :=
  if negb USE_API then Ok sample else
  let comment_text := truncate comment_text in
  try_except
    (message_content ← chat svc comment_text pdf_attached;
     content ← match message_content with
               | Some c => Ok (PyStr.strip c)
               | None => Raise AttributeError
               end;
     clean_json ← extract_json_block content;
     response_data ← json_loads svc clean_json;
     listed ← py_get response_data "issues" (JList []);
     parsed_issues ←
       (if is_list listed then py_index response_data "issues"
        else
          v ← py_get response_data "issues" (JStr "Needs manual review");
          Ok (JList [v]));
     who_type ← py_get response_data "who_type" (JStr "Unknown");
     who_name ← py_get response_data "who_name" (JStr "Unknown");
     what ← py_get response_data "what" (JStr "Unknown");
     why ← py_get response_data "why" (JStr "Unknown");
     support ← py_get response_data "scientific_legal_support" (JStr "No");
     Ok {| who_type := who_type; who_name := who_name; what := what;
           why := why; issues := parsed_issues;
           scientific_legal_support := support |})
    [ ([ClsJSONDecodeError; ClsAttributeError], λ _, Ok fallback);
      ([ClsException], λ _, Ok fallback) ].

(** *** Comment processor *)

(** The issues are a list of strings. *)
Definition string_list (v : json) : Prop := ∃ l, v = JList (JStr <$> l).


(** The entries of a PageFile, as the downloader writes them: the
    ["file_path"] of an attachment is the path [download_file] returned,
    or [null] when the download failed; the ["text"] of a comment may be
    [null]. *)
Import Downloader.

(** A row of the output table. *)
Record flat_record : Type := {
  fr_comment_id : string;
  fr_comment_link : string;
  fr_who_type : json;
  fr_who_name : json;
  fr_what : json;
  fr_why : json;
  fr_issues : string;
  fr_scientific_legal_support : json;
  fr_pdf_attachments_present : string;
  fr_pdf_attachments_count : nat;
}.

(** The filesystem: [os.path.basename], [os.path.join] (both depend on
    the platform) and [os.path.exists]. *)
Record filesystem : Type := {
  os_path_basename : string → string;
  os_path_join : string → string → string;
  os_path_exists : string → bool;
}.

(** [att.get("file_path", "")]: the key is there in every entry the
    downloader writes, so the default is not used and a [null] comes out
    as [None]; calling a string method on it raises [AttributeError]. *)
Definition get_file_path (att : attachment) : result string :=
  match file_path att with
  | Some path => Ok path
  | None => Raise AttributeError
  end.

(** [sum(1 for att in attachments
         if att.get("file_path", "").lower().endswith(".pdf"))] *)
Fixpoint count_pdfs (attachments : list attachment) : result nat :=
  match attachments with
  | [] => Ok 0
  | att :: rest =>
      path ← get_file_path att;
      n ← count_pdfs rest;
      Ok (if PyStr.endswith ".pdf" (PyStr.lower path) then S n else n)
  end.

(** The loop over the attachments: the texts appended to
    [extracted_texts], and the recorded paths of the attachments
    [extract_text_from_pdf] was called for. *)
Fixpoint extract_attachments (libs : pdf_libs) (fs : filesystem)
    (pdf_folder : string) (attachments : list attachment)
    (extracted_texts : list string) (calls : list string)
    : result (list string * list string) :=
  match attachments with
  | [] => Ok (extracted_texts, calls)
  | att :: rest =>
      path ← get_file_path att;
      if PyStr.endswith ".pdf" path then
        let local_pdf_path :=
          os_path_join fs pdf_folder (os_path_basename fs path) in
        if os_path_exists fs local_pdf_path then
          pdf_text ← extract_text_from_pdf libs local_pdf_path;
          extract_attachments libs fs pdf_folder rest
            (if String.eqb pdf_text "" then extracted_texts
             else extracted_texts ++ ["Extracted PDF Text: " +:+ pdf_text])
            (calls ++ [path])
        else extract_attachments libs fs pdf_folder rest extracted_texts calls
      else extract_attachments libs fs pdf_folder rest extracted_texts calls
  end.

(** [", ".join(summary["issues"])]: every item has to be a string. *)
Fixpoint strings_of (items : list json) : result (list string) :=
  match items with
  | [] => Ok []
  | JStr s :: rest => l ← strings_of rest; Ok (s :: l)
  | _ :: _ => Raise TypeError
  end.

Definition join_issues (v : json) : result string :=
  match v with
  | JList items => l ← strings_of items; Ok (PyStr.join ", " l)
  | _ => Raise TypeError
  end.

(** The comment's own text in [extracted_texts]. *)
Definition body_texts (c : cleaned_comment) : list string :=
  let comment_text :=
    match text c with Some t => PyStr.strip t | None => "" end in
  if negb (String.eqb comment_text "") &&
     negb (bool_decide (PyStr.lower comment_text
                          ∈ ["see attached file(s)"; "see attached"]))
  then ["Comment Text: " +:+ comment_text]
  else [].

(** What one turn of the loop over [comments_data] does with a comment. *)
Record processed : Type := {
  pdf_count : nat;
  pdf_attached : bool;
  extraction_calls : list string;
  combined_text : string;
  record : option flat_record;   (* [None]: skipped as empty *)
}.

Definition process_comment (svc : services) (libs : pdf_libs)
    (fs : filesystem) (pdf_folder : string) (c : cleaned_comment)
    : result processed :=
  let comment_link :=
    "https://www.regulations.gov/comment/" +:+ comment_id c in
  pdf_count ← count_pdfs (attachments c);
  let pdf_attached := bool_decide (0 < pdf_count) in
  '(extracted_texts, calls) ←
    extract_attachments libs fs pdf_folder (attachments c)
      (body_texts c) [];
  let combined_text :=
    PyStr.strip (PyStr.join (newline +:+ newline) extracted_texts) in
  let done record :=
    {| pdf_count := pdf_count; pdf_attached := pdf_attached;
       extraction_calls := calls; combined_text := combined_text;
       record := record |} in
  if String.eqb combined_text "" then Ok (done None)
  else
    summary ← classify_comment_by_issue svc combined_text pdf_attached;
    joined ← join_issues (issues summary);
    Ok (done (Some {|
      fr_comment_id := comment_id c;
      fr_comment_link := comment_link;
      fr_who_type := who_type summary;
      fr_who_name := who_name summary;
      fr_what := what summary;
      fr_why := why summary;
      fr_issues := joined;
      fr_scientific_legal_support := scientific_legal_support summary;
      fr_pdf_attachments_present := if pdf_attached then "Yes" else "No";
      fr_pdf_attachments_count := pdf_count |})).

(** [process_json_comments] on the comments loaded from a PageFile. *)
Fixpoint process_json_comments_from (svc : services) (libs : pdf_libs)
    (fs : filesystem) (pdf_folder : string)
    (comments_data : list cleaned_comment) (results : list flat_record)
    : result (list flat_record) :=
  match comments_data with
  | [] => Ok results
  | comment :: rest =>
      p ← process_comment svc libs fs pdf_folder comment;
      process_json_comments_from svc libs fs pdf_folder rest
        (match record p with
         | Some data => results ++ [data]
         | None => results
         end)
  end.

Definition process_json_comments (svc : services) (libs : pdf_libs)
    (fs : filesystem) (comments_data : list cleaned_comment)
    (pdf_folder : string) : result (list flat_record) :=
  process_json_comments_from svc libs fs pdf_folder comments_data [].

(** [process_all_comments] over the PageFiles of the folder: the rows
    written to the table, when no file's processing raises. *)
Fixpoint process_all_comments (svc : services) (libs : pdf_libs)
    (fs : filesystem) (page_files : list (list cleaned_comment))
    (pdf_folder : string) : result (list flat_record) :=
  match page_files with
  | [] => Ok []
  | comments_data :: rest =>
      new_results ← process_json_comments svc libs fs comments_data pdf_folder;
      results ← process_all_comments svc libs fs rest pdf_folder;
      Ok (new_results ++ results)
  end.

End LLMModel.

(** ** comment_clustering.py *)

Module Clustering.

(** *** Pass 1: grouping the issues, batch by batch *)

(** An object of the array the service returns for a batch. *)
Record group : Type := {
  category : string;
  related_issues : list string;
}.

(** What [extract_json_block] gives for a batch: the array, or [None]
    when it raises [ValueError]. *)
Definition batch_response : Type := option (list group).

Definition BATCH_SIZE : nat := 500.

(** [all_issues[i * BATCH_SIZE : (i + 1) * BATCH_SIZE]] for [i] in
    [range(ceil(len(all_issues) / BATCH_SIZE))]. *)
Definition batches (all_issues : list string) : list (list string) :=
  let num_batches := (length all_issues + (BATCH_SIZE - 1)) / BATCH_SIZE in
  (λ i, take BATCH_SIZE (drop (i * BATCH_SIZE) all_issues))
    <$> seq 0 num_batches.

(** The two globals the loop fills. *)
Record grouping : Type := {
  issue_to_category : gmap string string;
  all_categories : gset string;
}.

(** The body of [for group in issue_groupings]. *)
Definition add_group (st : grouping) (g : group) : grouping :=
  {| all_categories := {[category g]} ∪ all_categories st;
     issue_to_category :=
       foldl (λ m issue, <[issue := category g]> m)
             (issue_to_category st) (take 200 (related_issues g)) |}.

(** The [try] of one batch: a batch whose answer does not parse is
    skipped. *)
Definition add_batch (st : grouping) (r : batch_response) : grouping :=
  match r with
  | Some issue_groupings => foldl add_group st issue_groupings
  | None => st
  end.

Definition merge_responses (responses : list batch_response) : grouping :=
  foldl add_batch {| issue_to_category := ∅; all_categories := ∅ |} responses.

(** The loop over the batches, the service being a function of the
    batch it is sent. *)
Definition group_issues (service : list string → batch_response)
    (all_issues : list string) : grouping :=
  merge_responses (service <$> batches all_issues).

(** The assignments [issue_to_category[issue] = category] of a run, in
    the order they are made, and what one of them does to the map. *)
Definition assign (m : gmap string string) (w : string * string)
    : gmap string string :=
  <[w.1 := w.2]> m.

Definition writes (responses : list batch_response)
    : list (string * string) :=
  responses ≫= λ r,
    default [] r ≫= λ g,
      (λ issue, (issue, category g)) <$> take 200 (related_issues g).

(** *** Pass 2: consolidating the categories *)

(** [consolidate_categories]: the mapping the service returned, or, when
    its answer does not parse, every category mapped to itself. *)
Definition consolidate_categories (answer : option (gmap string string))
    (categories : gset string) : gmap string string :=
  match answer with
  | Some mapping => mapping
  | None => set_to_map (λ cat, (cat, cat)) categories
  end.

(** [{k: category_mapping.get(v, v) for k, v in issue_to_category.items()}] *)
Definition remap (category_mapping issue_to_category : gmap string string)
    : gmap string string :=
  (λ v, default v (category_mapping !! v)) <$> issue_to_category.

(** *** The categorized and the exploded tables *)

(** [map_to_categories]: the set is listed in an order of its own, as
    [list(categories)] does. *)
Definition map_to_categories (issue_to_category : gmap string string)
    (issues : list string) : list string :=
  let categories : gset string :=
    foldl (λ categories issue,
             match issue_to_category !! issue with
             | Some category =>
                 if String.eqb category "" then categories
                 else {[category]} ∪ categories
             | None => categories
             end) ∅ issues in
  elements categories.

(** A row of the input table: its index label, the comment it is about,
    its issues, and its other columns. *)
Record row : Type := {
  index : nat;
  comment_id : string;
  issues : list string;
  other_columns : list string;
}.

(** A row of the exploded table: the ["issue_category"] cell is a
    category, or NaN ([None]) for a row with an empty list. *)
Record exploded_row : Type := {
  source : row;
  issue_category : option string;
}.

(** [df.explode("high_level_issues")] *)
Definition explode (issue_to_category : gmap string string)
    (df : list row) : list exploded_row :=
  df ≫= λ r,
    match map_to_categories issue_to_category (issues r) with
    | [] => [{| source := r; issue_category := None |}]
    | high_level_issues =>
        (λ c, {| source := r; issue_category := Some c |})
          <$> high_level_issues
    end.

(** One row for each record and each category of its list. *)
Definition pairs (issue_to_category : gmap string string) (df : list row)
    : list exploded_row :=
  df ≫= λ r,
    (λ c, {| source := r; issue_category := Some c |})
      <$> map_to_categories issue_to_category (issues r).

(** [df_exploded[df_exploded["issue_category"].notna()]] *)
Definition notna (df : list exploded_row) : list exploded_row :=
  filter (λ x, is_Some (issue_category x)) df.

(** The order of [sort_values(by=["issue_category", "comment_id"])]:
    cells compare as strings, NaN after every string. *)
Definition cell_compare (a b : option string) : comparison :=
  match a, b with
  | Some x, Some y => String.compare x y
  | Some _, None => Lt
  | None, Some _ => Gt
  | None, None => Eq
  end.

Definition row_leb (x y : exploded_row) : bool :=
  match cell_compare (issue_category x) (issue_category y) with
  | Lt => true
  | Eq => String.leb (comment_id (source x)) (comment_id (source y))
  | Gt => false
  end.

Definition row_le (x y : exploded_row) : Prop := row_leb x y = true.

#[global] Instance row_le_dec : RelDecision row_le.
Proof. intros x y. unfold row_le. apply _. Defined.

Definition sort_values (df : list exploded_row) : list exploded_row :=
  merge_sort row_le df.

(** The table written to [SORTED_OUTPUT]. *)
Definition df_sorted (issue_to_category : gmap string string)
    (df : list row) : list exploded_row :=
  sort_values (notna (explode issue_to_category df)).

(** *** Loading the table *)


(** [list(Counter(...).keys())]: the issues of the rows, each once, in the
    order they are first met. *)
Definition first_seen (seen : list string) (issue : string) : list string :=
  if bool_decide (issue ∈ seen) then seen else seen ++ [issue].

Definition all_issues (df : list row) : list string :=
  foldl first_seen [] (df ≫= issues).

End Clustering.

(** ** Sample runs *)

Module Samples.
Import Downloader LLMModel.

Definition quote : string := String "034" "".

(** A service that answers in prose. *)
Definition prose_services : services := {|
  chat := λ _ _, Ok (Some "I am unable to analyse this comment.");
  json_loads := λ _, Raise JSONDecodeError;
|}.

(** A service whose answer holds the object [{"what": "Withdraw the rule"}],
    with a decoder for that text. *)
Definition what_only_block : string :=
  "{" +:+ quote +:+ "what" +:+ quote +:+ ": "
      +:+ quote +:+ "Withdraw the rule" +:+ quote +:+ "}".

Definition what_only_services : services := {|
  chat := λ _ _, Ok (Some ("Here is the JSON: " +:+ what_only_block));
  json_loads := λ s,
    if String.eqb s what_only_block
    then Ok (JDict [("what", JStr "Withdraw the rule")])
    else Raise JSONDecodeError;
|}.

(** A file whose first page has text and whose second page makes
    pdfplumber raise; the OCR engine would read it. *)
Definition torn_libs : pdf_libs := {|
  pdfplumber_open := λ _,
    Pages [PageText (Some "page one"); PageRaises (OtherError "bad page")];
  convert_from_path := λ _, Ok [Ok "page one"; Ok "page two"];
|}.

(** A file with no text layer that the OCR engine cannot open. *)
Definition scan_libs : pdf_libs := {|
  pdfplumber_open := λ _, OpenRaises (OtherError "no text layer");
  convert_from_path := λ _, Raise (OtherError "poppler not found");
|}.

(** A file with no text layer on which the OCR engine reads nothing. *)
Definition blank_libs : pdf_libs := {|
  pdfplumber_open := λ _, Pages [PageText None; PageText (Some "")];
  convert_from_path := λ _, Ok [Ok " "; Ok ""];
|}.

(** A comment with an attachment that failed to download, and a PageFile
    that starts with it. *)
Definition failed_download_comment : cleaned_comment :=
  {| comment_id := "FSIS-2011-0012-0001";
     text := Some "See attached file(s)";
     attachments :=
       [ {| url := "https://downloads.regulations.gov/a.pdf";
            file_path := None |} ] |}.

Definition failed_download_page : list cleaned_comment :=
  [ failed_download_comment;
    {| comment_id := "FSIS-2011-0012-0002";
       text := Some "I support the proposed rule.";
       attachments := [] |} ].

(** A comment with a body and one attachment saved under an upper-case
    extension, and a disk that holds it. *)
Definition upper_case_attachment : attachment :=
  {| url := "https://downloads.regulations.gov/b";
     file_path := Some "./attachments/FSIS-2011-0012-0003_0.PDF" |}.

Definition upper_case_comment : cleaned_comment :=
  {| comment_id := "FSIS-2011-0012-0003";
     text := Some "Please see my letter.";
     attachments := [upper_case_attachment] |}.

Definition full_disk : filesystem := {|
  os_path_basename := λ path, path;
  os_path_join := λ folder name, folder +:+ "/" +:+ name;
  os_path_exists := λ _, true;
|}.

(** A repository that holds five comments, every one with a link, a
    full record and no attachment. *)
Definition five_summaries : list summary :=
  (λ id, {| self_link := Some id |}) <$> ["c1"; "c2"; "c3"; "c4"; "c5"].

Definition five_comment_api : api := {|
  get_comments_by_object_id := λ _ size number,
    Some (listing five_summaries size number);
  fetch_full_comment_data := λ link,
    Some {| full_id := link; full_text := Some "I support the rule." |};
  attachments_of := λ _, Some [];
  requests_get_file := λ _, None;
|}.

(** A repository with two comments; the first has one attachment, whose
    file cannot be downloaded. *)
Definition broken_file_api : api := {|
  get_comments_by_object_id := λ _ size number,
    Some (listing [ {| self_link := Some "comments/FSIS-2011-0012-0001" |};
                    {| self_link := Some "comments/FSIS-2011-0012-0002" |} ]
            size number);
  fetch_full_comment_data := λ link,
    if String.eqb link "comments/FSIS-2011-0012-0001"
    then Some {| full_id := "FSIS-2011-0012-0001";
                 full_text := Some "See attached file(s)" |}
    else Some {| full_id := "FSIS-2011-0012-0002";
                 full_text := Some "I support the proposed rule." |};
  attachments_of := λ comment_id,
    if String.eqb comment_id "FSIS-2011-0012-0001"
    then Some [Some [Some "https://downloads.regulations.gov/a.pdf"]]
    else Some [];
  requests_get_file := λ _, None;
|}.

(** Two batches whose answers put the issue ["line speed"] under
    different categories. *)
Definition colliding_responses : list Clustering.batch_response :=
  [ Some [ {| Clustering.category := "Worker Safety";
              Clustering.related_issues := ["line speed"; "injuries"] |} ];
    Some [ {| Clustering.category := "Food Safety";
              Clustering.related_issues := ["line speed"] |} ] ].

(** A final issue-to-category map, and a table of three records; the
    issue of the second one has no category. *)
Definition sample_categories : gmap string string :=
  list_to_map [ ("line speed", "Worker Safety");
                ("injuries", "Worker Safety");
                ("salmonella", "Food Safety") ].

Definition uncategorized_record : Clustering.row :=
  {| Clustering.index := 1; Clustering.comment_id := "FSIS-2011-0012-0002";
     Clustering.issues := ["paperwork"];
     Clustering.other_columns := [] |}.

Definition sample_table : list Clustering.row :=
  [ {| Clustering.index := 0; Clustering.comment_id := "FSIS-2011-0012-0007";
       Clustering.issues := ["line speed"; "salmonella"; "injuries"];
       Clustering.other_columns := [] |};
    uncategorized_record;
    {| Clustering.index := 2; Clustering.comment_id := "FSIS-2011-0012-0005";
       Clustering.issues := ["salmonella"];
       Clustering.other_columns := [] |} ].

(** A service whose answer holds the object
    [{"what": "Withdraw the rule", "issues": "line speed"}], and one whose
    answer holds [{"issues": null}], each with a decoder for that text. *)
Definition scalar_issue_block : string :=
  "{" +:+ quote +:+ "what" +:+ quote +:+ ": "
      +:+ quote +:+ "Withdraw the rule" +:+ quote +:+ ", "
      +:+ quote +:+ "issues" +:+ quote +:+ ": "
      +:+ quote +:+ "line speed" +:+ quote +:+ "}".

Definition scalar_issue_services : services := {|
  chat := λ _ _, Ok (Some scalar_issue_block);
  json_loads := λ s,
    if String.eqb s scalar_issue_block
    then Ok (JDict [("what", JStr "Withdraw the rule");
                    ("issues", JStr "line speed")])
    else Raise JSONDecodeError;
|}.

Definition null_issue_block : string :=
  "{" +:+ quote +:+ "issues" +:+ quote +:+ ": null}".

Definition null_issue_services : services := {|
  chat := λ _ _, Ok (Some null_issue_block);
  json_loads := λ s,
    if String.eqb s null_issue_block
    then Ok (JDict [("issues", JNull)])
    else Raise JSONDecodeError;
|}.

(** A comment with no text of its own and one saved PDF attachment. *)
Definition pdf_attachment : attachment :=
  {| url := "https://downloads.regulations.gov/d";
     file_path := Some "./attachments/FSIS-2011-0012-0006_0.pdf" |}.

Definition pdf_only_comment : cleaned_comment :=
  {| comment_id := "FSIS-2011-0012-0006";
     text := Some "See attached file(s)";
     attachments := [pdf_attachment] |}.

End Samples.

(** * Properties of the embedding *)

(** ** Strings *)

Section string_facts.
Import PyStr.

Lemma str_app_cons (c : ascii) (s t : string) :
  String c s +:+ t = String c (s +:+ t).
Proof. reflexivity. Qed.

Lemma str_app_nil_l (s : string) : "" +:+ s = s.
Proof. reflexivity. Qed.

Lemma str_app_nil_r (s : string) : s +:+ "" = s.
Proof. induction s as [|c s IH]; [done|]. by rewrite str_app_cons, IH. Qed.

Lemma str_app_assoc (s t u : string) : s +:+ t +:+ u = (s +:+ t) +:+ u.
Proof.
  induction s as [|c s IH]; [done|]. by rewrite !str_app_cons, IH.
Qed.

Lemma all_app p s t : all p (s +:+ t) = all p s && all p t.
Proof.
  induction s as [|c s IH]; [done|].
  rewrite str_app_cons. simpl. rewrite IH. by destruct (p c).
Qed.

Lemma startswith_app pre s : startswith pre (pre +:+ s) = true.
Proof.
  induction pre as [|c pre IH]; [done|].
  rewrite str_app_cons. simpl. by rewrite Ascii.eqb_refl, IH.
Qed.

Lemma startswith_inv pre s :
  startswith pre s = true → ∃ rest, s = pre +:+ rest.
Proof.
  revert s. induction pre as [|a pre IH]; intros s H.
  - by exists s.
  - destruct s as [|b s]; [done|]. simpl in H.
    apply andb_true_iff in H as [Hab H].
    apply Ascii.eqb_eq in Hab as ->.
    destruct (IH _ H) as [rest ->]. by exists rest.
Qed.

Lemma contains_app sub pre rest : contains sub (pre +:+ sub +:+ rest) = true.
Proof.
  induction pre as [|c pre IH].
  - rewrite str_app_nil_l. destruct (sub +:+ rest) eqn:E; simpl;
      rewrite <- E, startswith_app; done.
  - rewrite str_app_cons. simpl. rewrite IH. apply orb_true_r.
Qed.

Lemma contains_inv sub s :
  contains sub s = true → ∃ pre rest, s = pre +:+ sub +:+ rest.
Proof.
  induction s as [|c s IH]; simpl; intros H.
  - rewrite orb_false_r in H. apply startswith_inv in H as [rest ->].
    by exists "", rest.
  - apply orb_true_iff in H as [H|H].
    + apply startswith_inv in H as [rest ->]. by exists "", rest.
    + destruct (IH H) as (pre & rest & ->). by exists (String c pre), rest.
Qed.

Lemma lstrip_suffix s : ∃ pre, s = pre +:+ lstrip s.
Proof.
  induction s as [|c s [pre IH]]; simpl.
  - by exists "".
  - destruct (is_space c).
    + exists (String c pre). by rewrite str_app_cons, <- IH.
    + by exists "".
Qed.

Lemma rstrip_prefix s : ∃ post, s = rstrip s +:+ post.
Proof.
  induction s as [|c s [post IH]]; simpl.
  - by exists "".
  - destruct (rstrip s) as [|d r] eqn:E.
    + destruct (is_space c).
      * by exists (String c s).
      * exists post. rewrite str_app_cons. by rewrite <- IH.
    + exists post. rewrite str_app_cons. by rewrite <- IH.
Qed.

Lemma strip_infix s : ∃ pre post, s = pre +:+ strip s +:+ post.
Proof.
  destruct (lstrip_suffix s) as [pre Hpre].
  destruct (rstrip_prefix (lstrip s)) as [post Hpost].
  exists pre, post. unfold strip. by rewrite <- Hpost.
Qed.

End string_facts.

(** ** Exceptions *)

Lemma try_except_total {A} (body : result A) clauses h :
  last clauses = Some ([ClsException], h) →
  Forall (λ cl, ∀ e, ¬ raises (cl.2 e)) clauses →
  ¬ raises (try_except body clauses).
Proof.
  intros Hlast Hall [e He]. destruct body as [a|e']; simpl in He; [done|].
  induction clauses as [|[cls h'] rest IH]; [done|].
  apply Forall_cons in Hall as [Hh Hall]. simpl in He.
  destruct (existsb _ cls) eqn:E.
  - by apply (Hh e'); exists e.
  - destruct rest as [|cl rest].
    + simplify_eq/=.
    + apply IH; done.
Qed.

(** ** The matcher is sound: what it returns is a match *)

Section regex_facts.
Import PyStr Regex.

Lemma match_atoms_Lit lit r s :
  match_atoms (Lit lit :: r) s =
  match match_lit lit s with
  | Some rest => cons lit <$> match_atoms r rest
  | None => None
  end.
Proof. reflexivity. Qed.

Lemma match_atoms_Plus cls r c s :
  match_atoms (Plus cls :: r) (String c s) =
  if cls c then
    match star_then cls (match_atoms r) s with
    | Some (m, ms) => Some (String c m :: ms)
    | None => None
    end
  else None.
Proof. reflexivity. Qed.

Lemma search_here r s ms :
  match_atoms r s = Some ms → search r s = Some ms.
Proof. intros H. destruct s; cbn [search]; by rewrite H. Qed.

Lemma search_next r c s :
  match_atoms r (String c s) = None → search r (String c s) = search r s.
Proof. intros H. cbn [search]. by rewrite H. Qed.

Lemma match_lit_Some lit s rest :
  match_lit lit s = Some rest → s = lit +:+ rest.
Proof.
  revert s. induction lit as [|a lit IH]; intros [|b s] H;
    simplify_eq/=; try done.
  destruct (Ascii.eqb_spec a b) as [->|]; [|done].
  by rewrite (IH _ H).
Qed.

Lemma match_lit_app lit rest : match_lit lit (lit +:+ rest) = Some rest.
Proof.
  induction lit as [|a lit IH]; [by destruct rest|].
  rewrite str_app_cons. simpl. by rewrite Ascii.eqb_refl.
Qed.

Lemma star_then_Some cls k s m ms :
  star_then cls k s = Some (m, ms) →
  PyStr.all cls m = true ∧ ∃ rest, s = m +:+ rest ∧ k rest = Some ms.
Proof.
  revert m ms. induction s as [|c s IH]; intros m ms H; simpl in H.
  - destruct (k "") eqn:E; simplify_eq/=. split; [done|]. by exists "".
  - assert (Hstop : pair "" <$> k (String c s) = Some (m, ms) →
              PyStr.all cls m = true ∧
              ∃ rest, String c s = m +:+ rest ∧ k rest = Some ms).
    { intros Hs. destruct (k (String c s)) eqn:E; simplify_eq/=.
      split; [done|]. by exists (String c s). }
    destruct (cls c) eqn:Hc; [|by auto].
    destruct (star_then cls k s) as [[m' ms']|] eqn:E; [|by auto].
    simplify_eq. destruct (IH _ _ eq_refl) as (Hall & rest & -> & Hk).
    split; [by simpl; rewrite Hc|]. by exists rest.
Qed.

Lemma match_atoms_sound r s ms :
  match_atoms r s = Some ms →
  Forall2 piece_ok r ms ∧ ∃ rest, s = PyStr.concat ms +:+ rest.
Proof.
  revert s ms. induction r as [|a r IH]; intros s ms H.
  - simplify_eq/=. split; [constructor|]. by exists s.
  - destruct a as [lit|cls|cls]; simpl in H.
    + destruct (match_lit lit s) as [rest|] eqn:E; [|done].
      apply match_lit_Some in E as ->.
      destruct (match_atoms r rest) as [ms'|] eqn:E'; simplify_eq/=.
      destruct (IH _ _ E') as (HF & rest' & ->).
      split; [by constructor|]. exists rest'.
      by rewrite str_app_assoc.
    + destruct s as [|c s]; [done|].
      destruct (cls c) eqn:Hc; [|done].
      destruct (star_then cls (match_atoms r) s) as [[m ms']|] eqn:E;
        simplify_eq/=.
      apply star_then_Some in E as (Hall & rest & -> & Hk).
      destruct (IH _ _ Hk) as (HF & rest' & ->).
      split.
      * constructor; [|done]. split; [done|]. by simpl; rewrite Hc.
      * exists rest'. by rewrite !str_app_cons, str_app_assoc.
    + destruct (star_then cls (match_atoms r) s) as [[m ms']|] eqn:E;
        simplify_eq/=.
      apply star_then_Some in E as (Hall & rest & -> & Hk).
      destruct (IH _ _ Hk) as (HF & rest' & ->).
      split; [by constructor|]. exists rest'.
      by rewrite str_app_assoc.
Qed.

Lemma search_sound r s ms :
  search r s = Some ms →
  Forall2 piece_ok r ms ∧ ∃ pre rest, s = pre +:+ PyStr.concat ms +:+ rest.
Proof.
  induction s as [|c s IH]; simpl; intros H.
  - destruct (match_atoms r "") eqn:E; simplify_eq.
    apply match_atoms_sound in E as (HF & rest & E).
    split; [done|]. by exists "", rest.
  - destruct (match_atoms r (String c s)) eqn:E; simplify_eq.
    + apply match_atoms_sound in E as (HF & rest & E).
      split; [done|]. by exists "", rest.
    + destruct (IH H) as (HF & pre & rest & ->).
      split; [done|]. by exists (String c pre), rest.
Qed.

End regex_facts.

(** ** The identifier resolver *)

Section resolver.
Import PyStr Regex Downloader.

Example resolver_document_link :
  extract_docket_id_or_document_id
    "https://www.regulations.gov/document/FSIS-2011-0012-0001"
  = (Some "FSIS-2011-0012-0001", Some "document").
Proof. reflexivity. Qed.

Example resolver_docket_link :
  extract_docket_id_or_document_id
    "https://www.regulations.gov/docket/FSIS-2011-0012"
  = (Some "FSIS-2011-0012", Some "docket").
Proof. reflexivity. Qed.

Example resolver_other_link :
  extract_docket_id_or_document_id "https://www.regulations.gov/faq"
  = (None, None).
Proof. reflexivity. Qed.

(** An occurrence of ["document/"] cannot start before another one and
    run into it. *)
Lemma document_no_overlap c p rest :
  startswith "document/" (String c p +:+ "document/" +:+ rest) = true →
  startswith "document/" (String c p) = true.
Proof.
  intros H. rewrite str_app_cons in H.
  do 8 (destruct p as [|? p];
        [ exfalso; cbn in H;
          repeat match goal with
                 | H : _ && _ = true |- _ =>
                     apply andb_true_iff in H as [? ?]
                 end; discriminate
        | rewrite str_app_cons in H ]).
  exact H.
Qed.

#[local] Arguments Ascii.eqb : simpl never.

Lemma match_lit_None lit s :
  startswith lit s = false → match_lit lit s = None.
Proof.
  revert s. induction lit as [|a lit IH]; intros [|b s] H;
    simplify_eq/=; try done.
  destruct (Ascii.eqb a b); simpl in H; auto.
Qed.

Lemma digit_id_char c : digit c = true → id_char c = true.
Proof.
  unfold digit, id_char. intros ->. by rewrite orb_true_r.
Qed.

Lemma digit_not_hyphen c : digit c = true → Ascii.eqb "-" c = false.
Proof.
  intros H. destruct (Ascii.eqb_spec "-" c) as [<-|]; [|done].
  by vm_compute in H.
Qed.

Lemma not_id_char_not_hyphen c : id_char c = false → Ascii.eqb "-" c = false.
Proof.
  intros H. destruct (Ascii.eqb_spec "-" c) as [<-|]; [|done].
  by vm_compute in H.
Qed.

(** The tail of the document pattern cannot start at the end of the
    identifier, nor inside its final digits. *)
Lemma suffix_no_restart d post :
  all digit d = true → ends_id post = true →
  star_then id_char (match_atoms [Lit "-"; Plus digit]) (d +:+ post) = None.
Proof.
  intros Hd Hpost. set (k := match_atoms [Lit "-"; Plus digit]).
  assert (Hk : ∀ c s, Ascii.eqb "-" c = false → k (String c s) = None).
  { intros c s Hc. unfold k. cbn [match_atoms match_lit]. by rewrite Hc. }
  induction d as [|c d IH].
  - rewrite str_app_nil_l. destruct post as [|c post]; [done|].
    simpl in Hpost. apply negb_true_iff in Hpost.
    cbn [star_then]. rewrite Hpost.
    by rewrite (Hk _ _ (not_id_char_not_hyphen c Hpost)).
  - simpl in Hd. apply andb_true_iff in Hd as [Hc Hd].
    rewrite str_app_cons. cbn [star_then].
    rewrite (digit_id_char c Hc), (IH Hd).
    by rewrite (Hk _ _ (digit_not_hyphen c Hc)).
Qed.

(** [\d+] at the end of the pattern takes every digit. *)
Lemma digits_greedy d post :
  all digit d = true → ends_id post = true →
  star_then digit (match_atoms []) (d +:+ post) = Some (d, []).
Proof.
  intros Hd Hpost. set (k := match_atoms []).
  induction d as [|c d IH].
  - rewrite str_app_nil_l. destruct post as [|c post]; [done|].
    simpl in Hpost. apply negb_true_iff in Hpost. cbn [star_then].
    destruct (digit c) eqn:Hc; [|done].
    by rewrite (digit_id_char c Hc) in Hpost.
  - simpl in Hd. apply andb_true_iff in Hd as [Hc Hd].
    rewrite str_app_cons. cbn [star_then]. by rewrite Hc, (IH Hd).
Qed.

Lemma hyphen_digits d post :
  d ≠ "" → all digit d = true → ends_id post = true →
  match_atoms [Lit "-"; Plus digit] ("-" +:+ d +:+ post) = Some ["-"; d].
Proof.
  intros Hne Hd Hpost. destruct d as [|c d]; [done|].
  simpl in Hd. apply andb_true_iff in Hd as [Hc Hd].
  pose proof (digits_greedy d post Hd Hpost) as Hg.
  cbn [match_atoms] in *. by rewrite match_lit_app, str_app_cons, Hc, Hg.
Qed.

(** [[A-Z0-9-]+] takes the whole identifier prefix: the hyphen it must
    leave to the pattern's tail is the last one. *)
Lemma id_greedy x d post :
  all id_char x = true →
  d ≠ "" → all digit d = true → ends_id post = true →
  star_then id_char (match_atoms [Lit "-"; Plus digit])
    (x +:+ "-" +:+ d +:+ post) = Some (x, ["-"; d]).
Proof.
  intros Hx Hne Hd Hpost. induction x as [|c x IH].
  - rewrite str_app_nil_l.
    change ("-" +:+ d +:+ post) with (String "-" (d +:+ post)).
    cbn [star_then].
    replace (id_char "-") with true by done.
    rewrite (suffix_no_restart d post Hd Hpost).
    change (String "-" (d +:+ post)) with ("-" +:+ d +:+ post).
    by rewrite (hyphen_digits d post Hne Hd Hpost).
  - simpl in Hx. apply andb_true_iff in Hx as [Hc Hx].
    rewrite str_app_cons. cbn [star_then]. by rewrite Hc, (IH Hx).
Qed.

Lemma document_match_at x d post :
  x ≠ "" → all id_char x = true →
  d ≠ "" → all digit d = true → ends_id post = true →
  match_atoms document_re ("document/" +:+ x +:+ "-" +:+ d +:+ post)
  = Some ["document/"; x; "-"; d].
Proof.
  intros Hxne Hx Hdne Hd Hpost. destruct x as [|c x]; [done|].
  simpl in Hx. apply andb_true_iff in Hx as [Hc Hx].
  unfold document_re.
  rewrite match_atoms_Lit, match_lit_app, str_app_cons, match_atoms_Plus, Hc.
  by rewrite (id_greedy x d post Hx Hdne Hd Hpost).
Qed.

Lemma search_skip_prefix pre tail ms :
  contains "document/" pre = false →
  match_atoms document_re ("document/" +:+ tail) = Some ms →
  search document_re (pre +:+ "document/" +:+ tail) = Some ms.
Proof.
  intros Hpre Hm. induction pre as [|c pre IH].
  - rewrite str_app_nil_l. by apply search_here.
  - simpl in Hpre. apply orb_false_iff in Hpre as [Hc Hpre].
    rewrite str_app_cons, search_next; [by apply IH|].
    unfold document_re. rewrite match_atoms_Lit, match_lit_None; [done|].
    destruct (startswith _ _) eqn:E; [|done].
    rewrite <- str_app_cons in E. apply document_no_overlap in E.
    simpl in E. congruence.
Qed.

Lemma document_shape_contains link :
  document_shape link → contains "document/" link = true.
Proof. intros (pre & x & d & post & -> & _). apply contains_app. Qed.

Lemma docket_shape_contains link :
  docket_shape link → contains "docket/" link = true.
Proof. intros (pre & x & post & -> & _). apply contains_app. Qed.

Lemma search_document_shape link ms :
  search document_re link = Some ms → document_shape link.
Proof.
  intros H. apply search_sound in H as (HF & pre & rest & ->).
  unfold document_re in HF.
  apply Forall2_cons_inv_l in HF as (p0 & ms0 & H0 & HF & ->).
  apply Forall2_cons_inv_l in HF as (x & ms1 & [Hxne Hx] & HF & ->).
  apply Forall2_cons_inv_l in HF as (p2 & ms2 & H2 & HF & ->).
  apply Forall2_cons_inv_l in HF as (d & ms3 & [Hdne Hd] & HF & ->).
  apply Forall2_nil_inv_l in HF as ->. simpl in H0, H2. subst p0 p2.
  exists pre, x, d, rest. repeat split; try done.
  unfold concat. simpl. by rewrite str_app_nil_r, <- !str_app_assoc.
Qed.

Lemma search_docket_shape link ms :
  search docket_re link = Some ms → docket_shape link.
Proof.
  intros H. apply search_sound in H as (HF & pre & rest & ->).
  unfold docket_re in HF.
  apply Forall2_cons_inv_l in HF as (p0 & ms0 & H0 & HF & ->).
  apply Forall2_cons_inv_l in HF as (x & ms1 & [Hxne Hx] & HF & ->).
  apply Forall2_nil_inv_l in HF as ->. simpl in H0. subst p0.
  exists pre, x, rest. repeat split; try done.
  unfold concat. simpl. by rewrite str_app_nil_r, <- !str_app_assoc.
Qed.

(** C6. A link whose first ["document/"] is followed by an identifier
    (characters of [[A-Z0-9-]], a hyphen, digits, and then the end of the
    link or a character outside the class) resolves to that identifier
    with the kind ["document"], as [.../document/ABC-2024-0001-0005]
    does.  A link with neither the document nor the docket shape resolves
    to [(None, None)]; and no link resolves to a pair with exactly one
    [None]. *)
Theorem resolver_document_or_failure :
  (∀ pre x d post,
      contains "document/" pre = false →
      x ≠ "" → all id_char x = true →
      d ≠ "" → all digit d = true →
      ends_id post = true →
      extract_docket_id_or_document_id
        (pre +:+ "document/" +:+ x +:+ "-" +:+ d +:+ post)
      = (Some (x +:+ "-" +:+ d), Some "document"))
  ∧ (∀ link, malformed link →
       extract_docket_id_or_document_id link = (None, None))
  ∧ (∀ link,
       extract_docket_id_or_document_id link = (None, None) ∨
       ∃ id kind,
         extract_docket_id_or_document_id link = (Some id, Some kind)).
Proof.
  split; [|split].
  - intros pre x d post Hpre Hxne Hx Hdne Hd Hpost.
    unfold extract_docket_id_or_document_id.
    change ("document/" +:+ x +:+ "-" +:+ d +:+ post)
      with ("document" +:+ "/" +:+ x +:+ "-" +:+ d +:+ post) at 1.
    rewrite contains_app.
    rewrite (search_skip_prefix pre _ _ Hpre
               (document_match_at x d post Hxne Hx Hdne Hd Hpost)).
    unfold group1, concat. simpl. by rewrite str_app_nil_r.
  - intros link [Hdoc Hdock]. unfold extract_docket_id_or_document_id.
    destruct (search document_re link) as [ms|] eqn:E1.
    { by apply search_document_shape in E1. }
    destruct (search docket_re link) as [ms|] eqn:E2.
    { by apply search_docket_shape in E2. }
    by repeat case_match.
  - intros link. unfold extract_docket_id_or_document_id.
    repeat case_match; eauto.
Qed.

Lemma resolver_document_or_failure_witness :
  extract_docket_id_or_document_id
    "https://www.regulations.gov/document/ABC-2024-0001-0005"
  = (Some "ABC-2024-0001-0005", Some "document")
  ∧ extract_docket_id_or_document_id "https://www.regulations.gov/faq"
    = (None, None).
Proof.
  destruct resolver_document_or_failure as (Hdoc & Hmal & _). split.
  - apply (Hdoc "https://www.regulations.gov/" "ABC-2024-0001" "0005" "");
      first [ reflexivity | discriminate ].
  - apply Hmal. split; intros H.
    + apply document_shape_contains in H. vm_compute in H. discriminate.
    + apply docket_shape_contains in H. vm_compute in H. discriminate.
Defined.

End resolver.

(** ** The structured extractor *)

Section structured_extractor.
Import PyStr Regex LLMModel.

Lemma search_json_block s ms :
  search json_block_re s = Some ms → has_json_block s.
Proof.
  intros H. apply search_sound in H as (HF & pre & rest & ->).
  unfold json_block_re in HF.
  apply Forall2_cons_inv_l in HF as (p0 & ms0 & H0 & HF & ->).
  apply Forall2_cons_inv_l in HF as (b & ms1 & _ & HF & ->).
  apply Forall2_cons_inv_l in HF as (p2 & ms2 & H2 & HF & ->).
  apply Forall2_nil_inv_l in HF as ->. simpl in H0, H2. subst p0 p2.
  exists pre, b, rest.
  unfold concat. simpl. by rewrite str_app_nil_r, <- !str_app_assoc.
Qed.

Lemma star_then_closing_brace k b c :
  (∀ s, k (String "}" s) ≠ None) →
  star_then (λ _, true) k (b +:+ "}" +:+ c) ≠ None.
Proof.
  intros Hk. induction b as [|x b IH].
  - rewrite str_app_nil_l.
    change ("}" +:+ c) with (String "}" c). cbn [star_then].
    destruct (star_then _ k c) as [[m ms]|]; [done|].
    specialize (Hk c). by destruct (k (String "}" c)).
  - rewrite str_app_cons. cbn [star_then].
    by destruct (star_then _ k (b +:+ "}" +:+ c)) as [[m ms]|].
Qed.

Lemma has_json_block_search s :
  has_json_block s → search json_block_re s ≠ None.
Proof.
  intros (a & b & c & ->). induction a as [|x a IH].
  - rewrite str_app_nil_l.
    assert (match_atoms json_block_re ("{" +:+ b +:+ "}" +:+ c) ≠ None) as H.
    { unfold json_block_re.
      rewrite match_atoms_Lit, match_lit_app.
      pose proof (star_then_closing_brace
                    (match_atoms [Lit "}"]) b c) as Hs.
      cbn [match_atoms fmap option_fmap option_map] in *.
      destruct (star_then _ _ (b +:+ "}" +:+ c)) as [[m ms]|]; [done|].
      exfalso. apply Hs; [|done]. intros s. by cbn. }
    destruct (match_atoms _ _) as [ms|] eqn:E; [|done].
    by rewrite (search_here _ _ _ E).
  - rewrite str_app_cons. cbn [search].
    by destruct (match_atoms json_block_re _).
Qed.

Lemma has_json_block_strip s : has_json_block (strip s) → has_json_block s.
Proof.
  intros (a & b & c & E). destruct (strip_infix s) as (pre & post & Hs).
  exists (pre +:+ a), b, (c +:+ post).
  rewrite Hs, E. by rewrite <- !str_app_assoc.
Qed.

Lemma extract_json_block_missing s :
  ¬ has_json_block s → extract_json_block s = Raise ValueError.
Proof.
  intros H. unfold extract_json_block.
  destruct (search json_block_re s) as [ms|] eqn:E; [|done].
  by apply search_json_block in E.
Qed.

(** Both clauses return, and the second one takes every exception. *)
Lemma classify_total svc comment_text pdf_attached :
  ¬ raises (classify_comment_by_issue svc comment_text pdf_attached).
Proof.
  unfold classify_comment_by_issue. simpl.
  eapply try_except_total; [done|].
  repeat constructor; by intros e [e' ?].
Qed.

(** C3. A response with no opening brace followed by a closing brace
    makes [classify_comment_by_issue] return the fallback record, whose
    issues are the one-element list ["Needs manual review"]; and whatever
    the service and the decoder do, the function returns and does not
    raise. *)
Theorem classify_without_json_block svc comment_text pdf_attached :
  ¬ raises (classify_comment_by_issue svc comment_text pdf_attached) ∧
  fallback = {| who_type := JStr "Unknown"; who_name := JStr "Unknown";
                what := JStr "Unknown"; why := JStr "Unknown";
                issues := JList [JStr "Needs manual review"];
                scientific_legal_support := JStr "No" |} ∧
  ∀ content,
    chat svc (truncate comment_text) pdf_attached = Ok (Some content) →
    ¬ has_json_block content →
    classify_comment_by_issue svc comment_text pdf_attached = Ok fallback.
Proof.
  split; [apply classify_total|]. split; [done|].
  intros content Hchat Hno. unfold classify_comment_by_issue. simpl.
  rewrite Hchat. simpl.
  rewrite extract_json_block_missing; [done|].
  intros H. by apply Hno, has_json_block_strip.
Qed.

(** C9. When the block the response holds decodes to a dict with no
    ["issues"] key, [classify_comment_by_issue] returns the whole fallback
    record: the decoded values of the other keys are not in it. *)
Theorem classify_missing_issues_key
    svc comment_text pdf_attached content block items :
  chat svc (truncate comment_text) pdf_attached = Ok (Some content) →
  extract_json_block (strip content) = Ok block →
  json_loads svc block = Ok (JDict items) →
  assoc "issues" items = None →
  classify_comment_by_issue svc comment_text pdf_attached = Ok fallback.
Proof.
  intros Hchat Hblock Hloads Hkey. unfold classify_comment_by_issue. simpl.
  rewrite Hchat. simpl. rewrite Hblock. simpl. rewrite Hloads. simpl.
  by rewrite Hkey.
Qed.

Lemma classify_without_json_block_witness :
  classify_comment_by_issue Samples.prose_services "Please reconsider." false
  = Ok fallback.
Proof.
  destruct (classify_without_json_block Samples.prose_services
              "Please reconsider." false) as (_ & _ & H).
  apply (H "I am unable to analyse this comment.").
  - reflexivity.
  - intros Hb. apply has_json_block_search in Hb. by vm_compute in Hb.
Defined.

Lemma classify_missing_issues_key_witness :
  classify_comment_by_issue Samples.what_only_services
    "Please withdraw the rule." true
  = Ok fallback.
Proof.
  apply (classify_missing_issues_key Samples.what_only_services
           "Please withdraw the rule." true
           ("Here is the JSON: " +:+ Samples.what_only_block)
           Samples.what_only_block
           [("what", JStr "Withdraw the rule")]);
    reflexivity.
Defined.

End structured_extractor.

(** ** The text extractor *)

Section text_extractor.
Import PyStr LLMModel.

Lemma extract_text_from_pdf_run_unfold libs pdf_path :
  extract_text_from_pdf_run libs pdf_path =
  if String.eqb (strip (primary_text libs pdf_path)) "" then
    {| ocr_called := true;
       returned :=
         match ocr_pass libs pdf_path with
         | Ok ocr_text =>
             Ok (if String.eqb (strip ocr_text) "" then PDF_UNREADABLE
                 else strip (strip ocr_text))
         | Raise _ => Ok OCR_FAILED
         end |}
  else
    {| ocr_called := false;
       returned := Ok (strip (primary_text libs pdf_path)) |}.
Proof.
  unfold extract_text_from_pdf_run, primary_text.
  destruct (primary_pass (pdfplumber_open libs pdf_path)) as [text body].
  assert (try_except body [([ClsException], λ _, Ok ())] = Ok ()) as ->.
  { by destruct body as [[]|e]. }
  simpl. destruct (String.eqb_spec (strip text) "") as [Hblank|Htext].
  - f_equal. by destruct (ocr_pass libs pdf_path).
  - f_equal. destruct (String.eqb_spec text "") as [->|]; [done|done].
Qed.

Lemma extract_text_from_pdf_total libs pdf_path :
  ¬ raises (extract_text_from_pdf libs pdf_path).
Proof.
  unfold extract_text_from_pdf. rewrite extract_text_from_pdf_run_unfold.
  intros [e He]. destruct (String.eqb _ ""); simpl in He; [|done].
  by destruct (ocr_pass libs pdf_path).
Qed.

(** C4, as the code has it. The OCR pass is run exactly when the first
    pass, whether it raised or not, has left no text other than blanks;
    so it is run when the first pass raises before any page gave text.
    When the OCR pass is run and raises, the function returns
    ["Unknown (OCR failed)"]; when it is run and reads only blanks, the
    function returns ["Unknown (PDF unreadable)"]. The two strings differ,
    and the function returns on every file. *)
Theorem text_extractor_fallback libs pdf_path :
  let run := extract_text_from_pdf_run libs pdf_path in
  (primary_raises libs pdf_path →
   strip (primary_text libs pdf_path) = "" → ocr_called run = true)
  ∧ (ocr_called run = true ↔ strip (primary_text libs pdf_path) = "")
  ∧ (strip (primary_text libs pdf_path) = "" →
     raises (ocr_pass libs pdf_path) →
     extract_text_from_pdf libs pdf_path = Ok OCR_FAILED)
  ∧ (strip (primary_text libs pdf_path) = "" →
     ∀ ocr_text, ocr_pass libs pdf_path = Ok ocr_text →
     strip ocr_text = "" →
     extract_text_from_pdf libs pdf_path = Ok PDF_UNREADABLE)
  ∧ OCR_FAILED ≠ PDF_UNREADABLE
  ∧ ¬ raises (extract_text_from_pdf libs pdf_path).
Proof.
  intros run.
  assert (ocr_called run = true ↔ strip (primary_text libs pdf_path) = "")
    as Hiff.
  { unfold run. rewrite extract_text_from_pdf_run_unfold.
    destruct (String.eqb_spec (strip (primary_text libs pdf_path)) "");
      simpl; split; done. }
  split; [by intros _ H; apply Hiff|]. split; [done|].
  split; [|split; [|split]].
  - intros Hblank [e He]. unfold extract_text_from_pdf.
    rewrite extract_text_from_pdf_run_unfold, Hblank. simpl. by rewrite He.
  - intros Hblank ocr_text Hocr Hnone. unfold extract_text_from_pdf.
    rewrite extract_text_from_pdf_run_unfold, Hblank. simpl.
    by rewrite Hocr, Hnone.
  - done.
  - apply extract_text_from_pdf_total.
Qed.

Lemma text_extractor_fallback_witness :
  ocr_called (extract_text_from_pdf_run Samples.scan_libs "scan.pdf") = true
  ∧ extract_text_from_pdf Samples.scan_libs "scan.pdf" = Ok OCR_FAILED
  ∧ extract_text_from_pdf Samples.blank_libs "blank.pdf" = Ok PDF_UNREADABLE.
Proof.
  destruct (text_extractor_fallback Samples.scan_libs "scan.pdf")
    as (Hraise & _ & Hfail & _).
  destruct (text_extractor_fallback Samples.blank_libs "blank.pdf")
    as (_ & _ & _ & Hblank & _).
  split; [|split].
  - apply Hraise; [by eexists|reflexivity].
  - apply Hfail; [reflexivity|by eexists].
  - apply (Hblank eq_refl (" " +:+ newline +:+ "" +:+ newline));
      reflexivity.
Defined.

(** C4, as stated, fails: the first pass raises on the second page, the
    text of the first page is kept, and the OCR pass is not run. *)
Lemma text_extractor_partial_text_no_ocr :
  primary_raises Samples.torn_libs "torn.pdf"
  ∧ ocr_called (extract_text_from_pdf_run Samples.torn_libs "torn.pdf")
    = false
  ∧ extract_text_from_pdf Samples.torn_libs "torn.pdf" = Ok "page one".
Proof. split; [by eexists|]. split; reflexivity. Qed.

End text_extractor.

(** ** The comment processor *)

Section comment_processor.
Import PyStr Downloader LLMModel.

Lemma count_pdfs_null attachments :
  Exists (λ att, file_path att = None) attachments →
  count_pdfs attachments = Raise AttributeError.
Proof.
  induction 1 as [att rest Hnull|att rest _ IH]; simpl.
  - unfold get_file_path. by rewrite Hnull.
  - unfold get_file_path. destruct (file_path att); [|done].
    simpl. by rewrite IH.
Qed.

Lemma process_comment_null svc libs fs pdf_folder c :
  Exists (λ att, file_path att = None) (attachments c) →
  process_comment svc libs fs pdf_folder c = Raise AttributeError.
Proof.
  intros H. unfold process_comment. by rewrite (count_pdfs_null _ H).
Qed.

Example download_file_failed :
  download_file Samples.broken_file_api
    "https://downloads.regulations.gov/a.pdf" "FSIS-2011-0012-0001" 0
  = None.
Proof. reflexivity. Qed.

Example download_file_saved :
  download_file
    {| get_comments_by_object_id := λ _ _ _, None;
       fetch_full_comment_data := λ _, None;
       attachments_of := λ _, None;
       requests_get_file := λ _, Some (Some "application/pdf") |}
    "https://downloads.regulations.gov/a.pdf" "FSIS-2011-0012-0001" 0
  = Some "./Downloads/USDA_JSON/attachments/FSIS-2011-0012-0001_0.pdf".
Proof. reflexivity. Qed.

(** C1 fails on the code. When the file of an attachment cannot be
    downloaded, the downloader writes the attachment with a [null] path.
    On that PageFile the count of the PDF attachments raises
    [AttributeError]; nothing catches it, so the comments after this one
    and the PageFiles after this one are not processed and no table is
    written. *)
Theorem processor_null_path_aborts svc libs fs pdf_folder :
  (∀ fuel,
     written <$> fetch_all_comments (S fuel) Samples.broken_file_api
                   "0900006480a1b2c3" All
     = Some [{| page := 1; entries := Samples.failed_download_page |}])
  ∧ ∀ later_files,
      process_all_comments svc libs fs
        (Samples.failed_download_page :: later_files) pdf_folder
      = Raise AttributeError.
Proof.
  split.
  - intros fuel. reflexivity.
  - intros later_files.
    unfold process_all_comments, process_json_comments,
      Samples.failed_download_page.
    cbn [process_json_comments_from].
    rewrite (process_comment_null _ _ _ _ Samples.failed_download_comment);
      [done|].
    by constructor.
Qed.

Lemma count_pdfs_present attachments :
  Forall (λ att, is_Some (file_path att)) attachments →
  ∃ n, count_pdfs attachments = Ok n ∧
       ∀ att path, att ∈ attachments → file_path att = Some path →
                   endswith ".pdf" (lower path) = true → 1 ≤ n.
Proof.
  induction 1 as [|att rest [path Hpath] _ (n & Hn & Hpos)].
  - exists 0. split; [done|]. intros att path H. by apply elem_of_nil in H.
  - simpl. unfold get_file_path. rewrite Hpath, Hn. simpl.
    eexists. split; [done|].
    intros att' path' [->|Hin]%elem_of_cons Hp Hpdf.
    + rewrite Hpath in Hp. simplify_eq. rewrite Hpdf. lia.
    + specialize (Hpos _ _ Hin Hp Hpdf). case_match; lia.
Qed.

Lemma extract_attachments_present libs fs pdf_folder attachments texts calls :
  Forall (λ att, is_Some (file_path att)) attachments →
  ∃ texts' calls',
    extract_attachments libs fs pdf_folder attachments texts calls
    = Ok (texts', calls') ∧
    ∀ path, path ∈ calls' → path ∈ calls ∨ endswith ".pdf" path = true.
Proof.
  intros H. revert texts calls.
  induction H as [|att rest [path Hpath] _ IH]; intros texts calls.
  - exists texts, calls. split; [done|]. auto.
  - simpl. unfold get_file_path. rewrite Hpath. simpl.
    destruct (endswith ".pdf" path) eqn:Hpdf; [|by apply IH].
    destruct (os_path_exists fs _); [|by apply IH].
    destruct (extract_text_from_pdf libs _) as [pdf_text|e] eqn:E.
    + simpl.
      edestruct IH as (texts' & calls' & -> & Hcalls).
      exists texts', calls'. split; [done|].
      intros p [Hp|Hp]%Hcalls; [|by right].
      apply elem_of_app in Hp as [Hp|Hp]; [by left|].
      apply list_elem_of_singleton in Hp as ->. by right.
    + exfalso. eapply extract_text_from_pdf_total. by eexists.
Qed.

Lemma extract_attachments_no_pdf libs fs pdf_folder attachments texts calls :
  Forall (λ att, ∃ path, file_path att = Some path ∧
                         endswith ".pdf" path = false) attachments →
  extract_attachments libs fs pdf_folder attachments texts calls
  = Ok (texts, calls).
Proof.
  induction 1 as [|att rest (path & Hpath & Hpdf) _ IH]; [done|].
  simpl. unfold get_file_path. by rewrite Hpath; simpl; rewrite Hpdf.
Qed.

Lemma process_comment_returns svc libs fs pdf_folder c n texts calls p :
  count_pdfs (attachments c) = Ok n →
  extract_attachments libs fs pdf_folder (attachments c) (body_texts c) []
  = Ok (texts, calls) →
  process_comment svc libs fs pdf_folder c = Ok p →
  pdf_count p = n ∧ pdf_attached p = bool_decide (0 < n) ∧
  extraction_calls p = calls ∧
  combined_text p = strip (join (newline +:+ newline) texts) ∧
  ∀ r, record p = Some r →
       fr_pdf_attachments_present r
       = (if bool_decide (0 < n) then "Yes" else "No") ∧
       fr_pdf_attachments_count r = n.
Proof.
  intros Hn Hex Hp. unfold process_comment in Hp.
  rewrite Hn in Hp. simpl in Hp. rewrite Hex in Hp. simpl in Hp.
  destruct (String.eqb _ ""); [by simplify_eq|].
  destruct (classify_comment_by_issue _ _ _) as [summary|]; [|done].
  simpl in Hp. destruct (join_issues _) as [joined|]; [|done].
  simplify_eq/=. do 4 (split; [done|]). by intros ? [= <-].
Qed.

(** C10. Take a comment whose attachments all have a recorded path, one
    of them a path that ends in [.pdf] only once lower-cased. The count
    of the PDF attachments returns and is at least one, so the flag is set
    and a record built for the comment reports ["Yes"] and that count; the
    loop over the attachments returns and [extract_text_from_pdf] is not
    called for that path. When no recorded path ends in the lower-case
    [.pdf], the texts the comment is classified on are those of its body
    alone and no extraction is attempted. *)
Theorem upper_case_pdf_counted_not_extracted
    svc libs fs pdf_folder c att path :
  Forall (λ a, is_Some (file_path a)) (attachments c) →
  att ∈ attachments c →
  file_path att = Some path →
  endswith ".pdf" (lower path) = true →
  endswith ".pdf" path = false →
  ∃ n texts calls,
    count_pdfs (attachments c) = Ok n ∧ 1 ≤ n ∧
    extract_attachments libs fs pdf_folder (attachments c) (body_texts c) []
    = Ok (texts, calls) ∧
    (path ∉ calls) ∧
    (∀ p, process_comment svc libs fs pdf_folder c = Ok p →
          pdf_count p = n ∧ pdf_attached p = true ∧
          extraction_calls p = calls ∧
          combined_text p = strip (join (newline +:+ newline) texts) ∧
          ∀ r, record p = Some r →
               fr_pdf_attachments_present r = "Yes" ∧
               fr_pdf_attachments_count r = n) ∧
    (Forall (λ a, ∃ q, file_path a = Some q ∧ endswith ".pdf" q = false)
            (attachments c) →
     texts = body_texts c ∧ calls = []).
Proof.
  intros Hall Hin Hpath Hlower Hexact.
  destruct (count_pdfs_present _ Hall) as (n & Hn & Hpos).
  destruct (extract_attachments_present libs fs pdf_folder _
              (body_texts c) [] Hall) as (texts & calls & Hex & Hcalls).
  assert (1 ≤ n) as Hn1 by eauto.
  exists n, texts, calls.
  split; [done|]. split; [done|]. split; [done|]. split; [|split].
  - intros Hp. apply Hcalls in Hp as [Hp|Hp].
    + by apply elem_of_nil in Hp.
    + congruence.
  - intros p Hp.
    destruct (process_comment_returns _ _ _ _ _ _ _ _ _ Hn Hex Hp)
      as (-> & -> & -> & -> & Hr).
    rewrite bool_decide_eq_true_2 in * by lia. done.
  - intros Hnone.
    rewrite (extract_attachments_no_pdf _ _ _ _ _ _ Hnone) in Hex.
    by simplify_eq.
Qed.

Example upper_case_pdf_run :
  ∃ r,
    process_comment Samples.what_only_services Samples.torn_libs
      Samples.full_disk "attachments" Samples.upper_case_comment
    = Ok {| pdf_count := 1; pdf_attached := true; extraction_calls := [];
            combined_text := "Comment Text: Please see my letter.";
            record := Some r |}
    ∧ fr_pdf_attachments_present r = "Yes"
    ∧ fr_pdf_attachments_count r = 1.
Proof. eexists. split; [reflexivity|]. split; reflexivity. Qed.

Lemma upper_case_pdf_counted_not_extracted_witness :
  ∃ n texts calls,
    count_pdfs (attachments Samples.upper_case_comment) = Ok n ∧ 1 ≤ n ∧
    extract_attachments Samples.torn_libs Samples.full_disk "attachments"
      (attachments Samples.upper_case_comment)
      (body_texts Samples.upper_case_comment) []
    = Ok (texts, calls) ∧
    ("./attachments/FSIS-2011-0012-0003_0.PDF" ∉ calls) ∧
    (∀ p, process_comment Samples.what_only_services Samples.torn_libs
            Samples.full_disk "attachments" Samples.upper_case_comment
          = Ok p →
          pdf_count p = n ∧ pdf_attached p = true ∧
          extraction_calls p = calls ∧
          combined_text p = strip (join (newline +:+ newline) texts) ∧
          ∀ r, record p = Some r →
               fr_pdf_attachments_present r = "Yes" ∧
               fr_pdf_attachments_count r = n) ∧
    (Forall (λ a, ∃ q, file_path a = Some q ∧ endswith ".pdf" q = false)
            (attachments Samples.upper_case_comment) →
     texts = body_texts Samples.upper_case_comment ∧ calls = []).
Proof.
  apply (upper_case_pdf_counted_not_extracted
           Samples.what_only_services Samples.torn_libs
           Samples.full_disk "attachments" Samples.upper_case_comment
           Samples.upper_case_attachment
           "./attachments/FSIS-2011-0012-0003_0.PDF").
  - repeat constructor. by eexists.
  - by apply list_elem_of_here.
  - reflexivity.
  - reflexivity.
  - reflexivity.
Defined.

End comment_processor.

(** ** The paginated ingestor *)

Section ingestor.
Import Downloader.

Lemma collect_page_quota srv total data cleaned d :
  all_fetched srv data →
  ∃ cs, collect_page srv total data cleaned d
        = (cleaned ++ cs, d + quota total d (length data)) ∧
        length cs = quota total d (length data).
Proof.
  intros H. revert cleaned d.
  induction H as [|s data [full Hs] _ IH]; intros cleaned d.
  - exists []. rewrite app_nil_r. destruct total; simpl; split; f_equal; lia.
  - cbn [collect_page]. destruct (reached d total) eqn:Hr.
    + exists []. rewrite app_nil_r.
      destruct total as [n|]; [|done]. simpl in Hr.
      apply bool_decide_eq_true in Hr. simpl.
      replace (Z.to_nat (n - Z.of_nat d)) with 0 by lia.
      split; f_equal; lia.
    + rewrite Hs.
      edestruct IH as (cs & -> & Hlen).
      eexists (_ :: cs). rewrite <- app_assoc. simpl.
      assert (S (quota total (S d) (length data))
              = quota total d (S (length data))) as Hq.
      { destruct total as [n|]; [|done]. simpl in Hr.
        apply bool_decide_eq_false in Hr. unfold quota. lia. }
      split; [f_equal; lia|]. lia.
Qed.

Lemma fetch_pages_more_fuel srv object_id total fuel fuel' p st st' :
  fetch_pages fuel srv object_id total p st = Some st' →
  fuel ≤ fuel' →
  fetch_pages fuel' srv object_id total p st = Some st'.
Proof.
  revert fuel' p st. induction fuel as [|fuel IH]; intros fuel' p st H Hle.
  - done.
  - destruct fuel' as [|fuel']; [lia|]. cbn [fetch_pages] in *.
    destruct (get_comments_by_object_id _ _ _ _) as [[|s data]|]; try done.
    destruct (collect_page _ _ _ _ _) as [cs d].
    destruct (_ || _); [done|]. apply IH; [done|lia].
Qed.

Lemma quota_page total d len :
  reached (d + quota total d (page_size `min` len)) total
  || bool_decide (page_size `min` len < page_size) = true →
  quota total d (page_size `min` len) = quota total d len.
Proof.
  intros [Hr|Hshort%bool_decide_eq_true]%orb_true_iff.
  - destruct total as [n|]; [|done]. unfold reached, quota in *.
    apply bool_decide_eq_true in Hr. unfold page_size in *. lia.
  - by replace (page_size `min` len) with len by lia.
Qed.

Lemma quota_next_page total d len :
  reached (d + quota total d (page_size `min` len)) total
  || bool_decide (page_size `min` len < page_size) = false →
  quota total d (page_size `min` len) = page_size ∧
  page_size + quota total (d + page_size) (len - page_size)
  = quota total d len.
Proof.
  intros [Hr Hfull%bool_decide_eq_false]%orb_false_iff.
  destruct total as [n|]; unfold reached, quota, page_size in *; [|lia].
  apply bool_decide_eq_false in Hr. lia.
Qed.

(** The loop on a repository that lists [available] page by page: from
    page [p] on, it takes [quota] entries of what the pages still hold. *)
Lemma fetch_pages_listing srv object_id total available :
  (∀ number, get_comments_by_object_id srv object_id page_size number
             = Some (listing available page_size number)) →
  all_fetched srv available →
  ∀ fuel p st,
    1 ≤ p →
    length (drop (page_size * (p - 1)) available) < fuel →
    ∃ st',
      fetch_pages fuel srv object_id total p st = Some st' ∧
      downloaded st' = downloaded st +
        quota total (downloaded st)
          (length (drop (page_size * (p - 1)) available)) ∧
      total_entries (written st') = total_entries (written st) +
        quota total (downloaded st)
          (length (drop (page_size * (p - 1)) available)).
Proof.
  intros Hapi Hall fuel.
  induction fuel as [|fuel IH]; intros p st Hp Hfuel; [lia|].
  cbn [fetch_pages]. rewrite Hapi. unfold listing.
  set (rest := drop (page_size * (p - 1)) available) in *.
  destruct (take page_size rest) as [|s data] eqn:Hpage.
  - apply take_nil_inv in Hpage as [?| ->]; [done|].
    eexists. split; [done|]. cbn [downloaded written requested length].
    replace (quota total (downloaded st) 0) with 0
      by (destruct total; unfold quota; lia).
    split; lia.
  - rewrite <- Hpage. cbn [downloaded requested written].
    assert (all_fetched srv (take page_size rest)) as Hfetched.
    { by apply Forall_take, Forall_drop. }
    destruct (collect_page_quota srv total _ [] (downloaded st) Hfetched)
      as (cs & -> & Hcs).
    rewrite length_take in *. cbn [downloaded written requested].
    set (q := quota total (downloaded st) (page_size `min` length rest)) in *.
    destruct (reached _ total || _) eqn:Hstop.
    + eexists. split; [done|]. cbn [downloaded written requested].
      apply quota_page in Hstop. fold q in Hstop.
      unfold total_entries. rewrite sum_list_with_app.
      cbn [sum_list_with entries]. rewrite length_app. cbn [length].
      split; lia.
    + apply quota_next_page in Hstop as [Hq Hsum]. fold q in Hq.
      edestruct (IH (S p)) as (st' & -> & Hd & Hw); [lia| |].
      { replace (page_size * (S p - 1)) with (page_size * (p - 1) + page_size)
          by (unfold page_size; lia).
        rewrite <- drop_drop, length_drop.
        change (drop (page_size * (p - 1)) available) with rest.
        assert (0 < page_size) by (unfold page_size; lia).
        assert (0 < length rest).
        { destruct rest; [by rewrite take_nil in Hpage|simpl; lia]. }
        lia. }
      exists st'. split; [done|].
      replace (page_size * (S p - 1)) with (page_size * (p - 1) + page_size)
        in Hd, Hw by (unfold page_size; lia).
      rewrite <- drop_drop, length_drop in Hd, Hw.
      change (drop (page_size * (p - 1)) available) with rest in Hd, Hw.
      cbn [downloaded written requested] in Hd, Hw.
      unfold total_entries in *.
      rewrite sum_list_with_app in Hw.
      cbn [sum_list_with entries] in Hw.
      rewrite length_app in Hw. cbn [length] in Hw.
      rewrite Hq in *. split; lia.
Qed.

(** C2. On a repository that lists its comments page by page and whose
    fetches all succeed, a run with a limit that is not negative (or with
    no limit) stops, and the files it has written hold
    [min(N, available)] entries in all, which is at most [N]. *)
Theorem ingestion_respects_limit srv object_id available total_comments :
  (∀ number, get_comments_by_object_id srv object_id page_size number
             = Some (listing available page_size number)) →
  all_fetched srv available →
  (∀ n, total_comments = Limit n → (0 ≤ n)%Z) →
  ∃ fuel st,
    (∀ fuel', fuel ≤ fuel' →
       fetch_all_comments fuel' srv object_id total_comments = Some st) ∧
    Z.of_nat (total_entries (written st))
    = limit_min total_comments (length available) ∧
    (∀ n, total_comments = Limit n →
          (Z.of_nat (total_entries (written st)) ≤ n)%Z).
Proof.
  intros Hapi Hall Hnonneg.
  destruct (fetch_pages_listing srv object_id total_comments available
              Hapi Hall (S (length available)) 1
              {| requested := []; written := []; downloaded := 0 |})
    as (st & Hrun & _ & Hw); [lia| |].
  { rewrite Nat.sub_diag, Nat.mul_0_r, drop_0. lia. }
  rewrite Nat.sub_diag, Nat.mul_0_r, drop_0 in Hw.
  cbn [written downloaded total_entries sum_list_with] in Hw.
  exists (S (length available)), st. split; [|split].
  - intros fuel' Hle. unfold fetch_all_comments.
    by apply (fetch_pages_more_fuel _ _ _ _ _ _ _ _ Hrun).
  - rewrite Hw. destruct total_comments as [n|]; unfold quota, limit_min.
    + specialize (Hnonneg n eq_refl). lia.
    + lia.
  - intros n ->. rewrite Hw. specialize (Hnonneg n eq_refl).
    unfold quota. lia.
Qed.

Lemma ingestion_respects_limit_witness :
  ∃ fuel st,
    (∀ fuel', fuel ≤ fuel' →
       fetch_all_comments fuel' Samples.five_comment_api
         "0900006480a1b2c3" (Limit 3) = Some st) ∧
    Z.of_nat (total_entries (written st))
    = limit_min (Limit 3) (length Samples.five_summaries) ∧
    (∀ n, Limit 3 = Limit n →
          (Z.of_nat (total_entries (written st)) ≤ n)%Z).
Proof.
  apply (ingestion_respects_limit Samples.five_comment_api
           "0900006480a1b2c3" Samples.five_summaries (Limit 3)).
  - reflexivity.
  - repeat constructor; by eexists.
  - intros n [= <-]. lia.
Defined.

Example five_comment_run :
  fetch_all_comments 1 Samples.five_comment_api "0900006480a1b2c3" (Limit 3)
  = Some {| requested := [1];
            written :=
              [{| page := 1;
                  entries :=
                    (λ id, {| comment_id := id;
                              text := Some "I support the rule.";
                              attachments := [] |})
                      <$> ["c1"; "c2"; "c3"] |}];
            downloaded := 3 |}.
Proof. reflexivity. Qed.

(** C8. With a limit of 3 on a repository that holds 5 comments, all
    fetches succeeding, the run asks for the first page only and writes
    one file, for page 1, with 3 entries. *)
Theorem limit_three_of_five srv object_id available :
  length available = 5 →
  (∀ number, get_comments_by_object_id srv object_id page_size number
             = Some (listing available page_size number)) →
  all_fetched srv available →
  ∃ three,
    length three = 3 ∧
    ∀ fuel, 1 ≤ fuel →
      fetch_all_comments fuel srv object_id (Limit 3)
      = Some {| requested := [1];
                written := [{| page := 1; entries := three |}];
                downloaded := 3 |}.
Proof.
  intros Hlen Hapi Hall.
  destruct (collect_page_quota srv (Limit 3) available [] 0 Hall)
    as (three & Hcollect & Hthree).
  rewrite Hlen in *. exists three. split; [done|].
  intros [|fuel] Hfuel; [lia|].
  unfold fetch_all_comments. cbn [fetch_pages requested written downloaded].
  rewrite Hapi. unfold listing.
  rewrite Nat.sub_diag, Nat.mul_0_r, drop_0.
  rewrite take_ge by (rewrite Hlen; unfold page_size; lia).
  destruct available as [|s data]; [done|].
  rewrite Hcollect. by rewrite Hlen.
Qed.

Lemma limit_three_of_five_witness :
  ∃ three,
    length three = 3 ∧
    ∀ fuel, 1 ≤ fuel →
      fetch_all_comments fuel Samples.five_comment_api
        "0900006480a1b2c3" (Limit 3)
      = Some {| requested := [1];
                written := [{| page := 1; entries := three |}];
                downloaded := 3 |}.
Proof.
  apply (limit_three_of_five Samples.five_comment_api
           "0900006480a1b2c3" Samples.five_summaries).
  - reflexivity.
  - reflexivity.
  - repeat constructor; by eexists.
Defined.

End ingestor.

(** ** The issue clusterer: merging the batches *)

Section merge.
Import Clustering.

(** After a sequence of assignments, a key holds what was assigned to it
    last. *)
Lemma foldl_assign_lookup (ws : list (string * string)) m issue :
  foldl assign m ws !! issue =
  match last (filter (λ w, w.1 = issue) ws) with
  | Some w => Some w.2
  | None => m !! issue
  end.
Proof.
  induction ws as [|w ws IH] using rev_ind; [done|].
  rewrite foldl_app, filter_app. cbn [foldl]. unfold assign at 1.
  destruct (decide (w.1 = issue)) as [Heq|Hne].
  - rewrite filter_cons_True, filter_nil by done.
    by rewrite last_snoc, Heq, lookup_insert_eq.
  - rewrite filter_cons_False, filter_nil, app_nil_r by done.
    by rewrite lookup_insert_ne.
Qed.

Lemma add_group_writes st g :
  issue_to_category (add_group st g) =
  foldl assign (issue_to_category st)
    ((λ issue, (issue, category g)) <$> take 200 (related_issues g)).
Proof. unfold add_group. simpl. by rewrite foldl_fmap. Qed.

Lemma add_groups_writes groups st :
  issue_to_category (foldl add_group st groups) =
  foldl assign (issue_to_category st)
    (groups ≫= λ g,
       (λ issue, (issue, category g)) <$> take 200 (related_issues g)).
Proof.
  revert st. induction groups as [|g groups IH]; intros st; [done|].
  cbn [foldl mbind list_bind]. fold (@mbind list _).
  by rewrite foldl_app, IH, add_group_writes.
Qed.

Lemma add_batches_writes responses st :
  issue_to_category (foldl add_batch st responses) =
  foldl assign (issue_to_category st) (writes responses).
Proof.
  revert st. induction responses as [|r responses IH]; intros st; [done|].
  unfold writes. cbn [foldl mbind list_bind]. fold (@mbind list _).
  rewrite foldl_app. fold (writes responses). rewrite IH. f_equal.
  destruct r as [groups|]; [|done]. apply add_groups_writes.
Qed.

(** C5, as the code has it: the last write wins. Whatever the batches
    answer, the category an issue ends with is the one of the last
    assignment made for it, and an issue no batch lists has none. *)
Theorem merge_last_write_wins responses issue :
  issue_to_category (merge_responses responses) !! issue
  = snd <$> last (filter (λ w, w.1 = issue) (writes responses)).
Proof.
  unfold merge_responses. rewrite add_batches_writes, foldl_assign_lookup.
  simpl. by destruct (last _).
Qed.

(** C5, as stated, fails: the first batch puts ["line speed"] under
    ["Worker Safety"], the second under ["Food Safety"], and the map ends
    with the second. *)
Lemma merge_overwrites_earlier :
  snd <$> head (filter (λ w, w.1 = "line speed")
                  (writes Samples.colliding_responses))
  = Some "Worker Safety"
  ∧ issue_to_category (merge_responses Samples.colliding_responses)
      !! "line speed"
    = Some "Food Safety".
Proof. split; [reflexivity|]. by vm_compute. Qed.

End merge.

(** ** The issue clusterer: the exploded table *)

Section exploded.
Import Clustering.

Lemma string_leb_trans x y z :
  String.leb x y = true → String.leb y z = true → String.leb x z = true.
Proof.
  intros Hxy%Is_true_true Hyz%Is_true_true. apply Is_true_true.
  change (String.le x z). by trans y.
Qed.

Lemma string_compare_Lt_leb x y :
  String.compare x y = Lt → String.leb x y = true.
Proof. unfold String.leb. by intros ->. Qed.

Lemma string_compare_Lt_trans x y z :
  String.compare x y = Lt → String.compare y z = Lt →
  String.compare x z = Lt.
Proof.
  intros Hxy Hyz.
  pose proof (string_leb_trans x y z (string_compare_Lt_leb _ _ Hxy)
                (string_compare_Lt_leb _ _ Hyz)) as Hxz.
  unfold String.leb in Hxz.
  destruct (String.compare x z) eqn:E; [|done|done].
  apply String.compare_eq_iff in E as ->.
  rewrite String.compare_antisym, Hyz in Hxy. done.
Qed.

Lemma cell_compare_antisym a b :
  cell_compare a b = CompOpp (cell_compare b a).
Proof. destruct a, b; simpl; try done. apply String.compare_antisym. Qed.

Lemma cell_compare_Eq a b : cell_compare a b = Eq → a = b.
Proof.
  destruct a, b; simpl; try done. by intros ->%String.compare_eq_iff.
Qed.

Lemma cell_compare_Lt_trans a b c :
  cell_compare a b = Lt → cell_compare b c = Lt → cell_compare a c = Lt.
Proof.
  destruct a, b, c; simpl; try done. apply string_compare_Lt_trans.
Qed.

#[local] Instance row_le_total : Total row_le.
Proof.
  intros x y. unfold row_le, row_leb.
  rewrite (cell_compare_antisym (issue_category y)).
  destruct (cell_compare (issue_category x) (issue_category y)); simpl;
    auto using String.leb_total.
Qed.

#[local] Instance row_le_trans : Transitive row_le.
Proof.
  intros x y z. unfold row_le, row_leb.
  destruct (cell_compare (issue_category x) (issue_category y)) eqn:Hxy;
    [| |done].
  - apply cell_compare_Eq in Hxy as ->.
    destruct (cell_compare (issue_category y) (issue_category z));
      [apply string_leb_trans|done|done].
  - intros _.
    destruct (cell_compare (issue_category y) (issue_category z)) eqn:Hyz;
      [| |done]; intros _.
    + apply cell_compare_Eq in Hyz as <-. by rewrite Hxy.
    + by rewrite (cell_compare_Lt_trans _ _ _ Hxy Hyz).
Qed.

(** The categories of a record: the categories, other than the empty
    string, that the map gives to its issues. *)
Lemma elem_of_map_to_categories m issues c :
  c ∈ map_to_categories m issues ↔
  c ≠ "" ∧ ∃ issue, issue ∈ issues ∧ m !! issue = Some c.
Proof.
  unfold map_to_categories. rewrite elem_of_elements.
  assert (∀ acc : gset string,
    c ∈ foldl (λ categories issue,
                 match m !! issue with
                 | Some category =>
                     if String.eqb category "" then categories
                     else {[category]} ∪ categories
                 | None => categories
                 end) acc issues ↔
    c ∈ acc ∨ (c ≠ "" ∧ ∃ issue, issue ∈ issues ∧ m !! issue = Some c))
    as Hfold.
  { induction issues as [|issue issues IH]; intros acc.
    - simpl. split; [by left|]. intros [?|(_ & i & Hi & _)]; [done|].
      by apply elem_of_nil in Hi.
    - cbn [foldl]. rewrite IH. split.
      + intros [Hacc|(Hne & i & Hi & Hm)].
        * destruct (m !! issue) as [cat|] eqn:Hcat; [|by left].
          destruct (String.eqb_spec cat ""); [by left|].
          apply elem_of_union in Hacc as [->%elem_of_singleton|?];
            [|by left].
          right. split; [done|]. exists issue. split; [left|done].
        * right. split; [done|]. exists i. split; [by right|done].
      + intros [Hacc|(Hne & i & Hi & Hm)].
        * left. destruct (m !! issue) as [cat|]; [|done].
          destruct (String.eqb cat ""); [done|].
          apply elem_of_union. by right.
        * apply elem_of_cons in Hi as [->|Hi].
          -- left. rewrite Hm. destruct (String.eqb_spec c ""); [done|].
             apply elem_of_union. left. by apply elem_of_singleton.
          -- right. split; [done|]. by exists i. }
  rewrite Hfold. split; [|by right].
  intros [Hempty|?]; [|done]. by apply not_elem_of_empty in Hempty.
Qed.

Lemma NoDup_map_to_categories m issues : NoDup (map_to_categories m issues).
Proof. apply NoDup_elements. Qed.

Lemma notna_explode m df : notna (explode m df) = pairs m df.
Proof.
  induction df as [|r df IH]; [done|].
  unfold notna, explode, pairs in *. rewrite !bind_cons, filter_app, IH.
  f_equal.
  destruct (map_to_categories m (issues r)) as [|c cs]; [done|].
  generalize (c :: cs) as l. intros l.
  induction l as [|c' l IHl]; [done|].
  rewrite fmap_cons, filter_cons_True by (by eexists). by rewrite IHl.
Qed.

Lemma elem_of_pairs m df x :
  x ∈ pairs m df ↔
  ∃ r c, r ∈ df ∧ c ∈ map_to_categories m (issues r) ∧
         x = {| source := r; issue_category := Some c |}.
Proof.
  unfold pairs. rewrite list_elem_of_bind. split.
  - intros (r & (c & -> & Hc)%list_elem_of_fmap & Hr). by exists r, c.
  - intros (r & c & Hr & Hc & ->). exists r. split; [|done].
    apply list_elem_of_fmap. by exists c.
Qed.

Lemma NoDup_pairs m df : NoDup df → NoDup (pairs m df).
Proof.
  intros Hdf. unfold pairs. apply NoDup_bind; [| |done].
  - intros r1 r2 x _ _ (c1 & -> & _)%list_elem_of_fmap
      (c2 & [= -> _] & _)%list_elem_of_fmap. done.
  - intros r _. apply NoDup_fmap_2; [|apply NoDup_map_to_categories].
    by intros c1 c2 [= ->].
Qed.

(** C7. The sorted table is a rearrangement of the rows [(r, c)], one
    for each record [r] of the input and each category [c] of its
    category list, a list without repetition; so a record with an empty
    list has no row, and distinct records give distinct rows. Its rows
    are in the order of their category, and of their comment identifier
    within a category. *)
Theorem exploded_rows_sorted m (df : list row) :
  df_sorted m df ≡ₚ pairs m df
  ∧ (∀ r, NoDup (map_to_categories m (issues r)))
  ∧ (∀ x, x ∈ df_sorted m df ↔
          ∃ r c, r ∈ df ∧ c ∈ map_to_categories m (issues r) ∧
                 x = {| source := r; issue_category := Some c |})
  ∧ (∀ r x, map_to_categories m (issues r) = [] →
            x ∈ df_sorted m df → source x ≠ r)
  ∧ (NoDup df → NoDup (df_sorted m df))
  ∧ StronglySorted row_le (df_sorted m df).
Proof.
  assert (df_sorted m df ≡ₚ pairs m df) as Hperm.
  { unfold df_sorted, sort_values.
    by rewrite merge_sort_Permutation, notna_explode. }
  assert (∀ x, x ∈ df_sorted m df ↔
          ∃ r c, r ∈ df ∧ c ∈ map_to_categories m (issues r) ∧
                 x = {| source := r; issue_category := Some c |}) as Hin.
  { intros x. by rewrite Hperm, elem_of_pairs. }
  split; [done|]. split; [intros r; apply NoDup_map_to_categories|].
  split; [done|]. split; [|split].
  - intros r x Hnil (r' & c & _ & Hc & ->)%Hin. simpl. intros ->.
    rewrite Hnil in Hc. by apply elem_of_nil in Hc.
  - intros Hdf. rewrite Hperm. by apply NoDup_pairs.
  - apply StronglySorted_merge_sort; apply _.
Qed.

Example sorted_sample_table :
  (λ x, (issue_category x, comment_id (source x)))
    <$> df_sorted Samples.sample_categories Samples.sample_table
  = [ (Some "Food Safety", "FSIS-2011-0012-0005");
      (Some "Food Safety", "FSIS-2011-0012-0007");
      (Some "Worker Safety", "FSIS-2011-0012-0007") ].
Proof. by vm_compute. Qed.

Lemma exploded_rows_sorted_witness :
  NoDup (df_sorted Samples.sample_categories Samples.sample_table)
  ∧ ∀ x, x ∈ df_sorted Samples.sample_categories Samples.sample_table →
         source x ≠ Samples.uncategorized_record.
Proof.
  destruct (exploded_rows_sorted Samples.sample_categories
              Samples.sample_table) as (_ & _ & _ & Hempty & Hnodup & _).
  split.
  - apply Hnodup. apply (NoDup_fmap_1 index). apply (NoDup_seq 0 3).
  - intros x Hx.
    apply (Hempty Samples.uncategorized_record x); [reflexivity|done].
Defined.

End exploded.

(** * Further properties of the code *)

(** ** The matcher is complete: a match that exists is found *)

Section regex_complete.
Import PyStr Regex.

Lemma star_then_complete cls k m rest :
  all cls m = true → k rest ≠ None → star_then cls k (m +:+ rest) ≠ None.
Proof.
  intros Hm Hk. induction m as [|c m IH].
  - rewrite str_app_nil_l. destruct rest as [|c rest]; cbn [star_then].
    + by destruct (k "").
    + destruct (cls c); [|by destruct (k (String c rest))].
      destruct (star_then cls k rest) as [[m ms]|]; [done|].
      by destruct (k (String c rest)).
  - simpl in Hm. apply andb_true_iff in Hm as [Hc Hm].
    rewrite str_app_cons. cbn [star_then]. rewrite Hc.
    specialize (IH Hm).
    by destruct (star_then cls k (m +:+ rest)) as [[m' ms]|].
Qed.

Lemma match_atoms_complete r ps rest :
  Forall2 piece_ok r ps → match_atoms r (concat ps +:+ rest) ≠ None.
Proof.
  intros H. induction H as [|a p r ps Hp _ IH]; [done|].
  unfold concat in *. cbn [foldr]. rewrite <- str_app_assoc.
  destruct a as [lit|cls|cls]; simpl in Hp.
  - subst p. rewrite match_atoms_Lit, match_lit_app.
    by destruct (match_atoms r _).
  - destruct Hp as [Hne Hp]. destruct p as [|c p]; [done|].
    simpl in Hp. apply andb_true_iff in Hp as [Hc Hp].
    rewrite str_app_cons, match_atoms_Plus, Hc.
    pose proof (star_then_complete cls (match_atoms r) p _ Hp IH) as Hs.
    by destruct (star_then cls (match_atoms r) _) as [[m ms]|].
  - cbn [match_atoms].
    pose proof (star_then_complete cls (match_atoms r) p _ Hp IH) as Hs.
    by destruct (star_then cls (match_atoms r) _) as [[m ms]|].
Qed.

Lemma search_complete r pre ps rest :
  Forall2 piece_ok r ps → search r (pre +:+ concat ps +:+ rest) ≠ None.
Proof.
  intros H. induction pre as [|c pre IH].
  - rewrite str_app_nil_l.
    pose proof (match_atoms_complete r ps rest H) as Hm.
    destruct (match_atoms r _) as [ms|] eqn:E; [|done].
    by rewrite (search_here _ _ _ E).
  - rewrite str_app_cons. cbn [search].
    by destruct (match_atoms r _).
Qed.

End regex_complete.

(** ** The identifier resolver: which links it takes *)

Section resolver_more.
Import PyStr Regex Downloader.

Lemma document_shape_search link :
  document_shape link → search document_re link ≠ None.
Proof.
  intros (pre & x & d & post & -> & Hxne & Hx & Hdne & Hd).
  pose proof (search_complete document_re pre ["document/"; x; "-"; d] post)
    as H.
  unfold concat in H. cbn [foldr] in H.
  rewrite str_app_nil_r, <- !str_app_assoc in H.
  apply H. unfold document_re. repeat constructor; done.
Qed.

Lemma docket_shape_search link :
  docket_shape link → search docket_re link ≠ None.
Proof.
  intros (pre & x & post & -> & Hxne & Hx).
  pose proof (search_complete docket_re pre ["docket/"; x] post) as H.
  unfold concat in H. cbn [foldr] in H.
  rewrite str_app_nil_r, <- !str_app_assoc in H.
  apply H. unfold docket_re. repeat constructor; done.
Qed.

Lemma docket_shape_contains_docket link :
  docket_shape link → contains "docket" link = true.
Proof.
  intros (pre & x & post & -> & _).
  change ("docket/" +:+ x +:+ post) with ("docket" +:+ "/" +:+ x +:+ post).
  apply contains_app.
Qed.

(** The resolver rejects a link exactly when the branch it takes finds no
    match: a link that holds ["document"] is tried as a document only,
    every other link as a docket only. *)
Theorem resolver_rejects_iff link :
  extract_docket_id_or_document_id link = (None, None) ↔
  (contains "document" link = true ∧ ¬ document_shape link) ∨
  (contains "document" link = false ∧ ¬ docket_shape link).
Proof.
  unfold extract_docket_id_or_document_id.
  destruct (contains "document" link) eqn:Hdoc.
  - destruct (search document_re link) as [ms|] eqn:E.
    + split; [done|]. intros [[_ H]|[? _]]; [|done].
      by apply search_document_shape in E.
    + split; [|done]. intros _. left. split; [done|].
      by intros H%document_shape_search.
  - destruct (contains "docket" link) eqn:Hdock.
    + destruct (search docket_re link) as [ms|] eqn:E.
      * split; [done|]. intros [[? _]|[_ H]]; [done|].
        by apply search_docket_shape in E.
      * split; [|done]. intros _. right. split; [done|].
        by intros H%docket_shape_search.
    + split; [|done]. intros _. right. split; [done|].
      intros H%docket_shape_contains_docket. congruence.
Qed.

Lemma search_document_pieces link ms :
  search document_re link = Some ms →
  ∃ pre x d post,
    ms = ["document/"; x; "-"; d] ∧
    link = pre +:+ "document/" +:+ x +:+ "-" +:+ d +:+ post ∧
    x ≠ "" ∧ all id_char x = true ∧ d ≠ "" ∧ all digit d = true.
Proof.
  intros H. apply search_sound in H as (HF & pre & rest & ->).
  unfold document_re in HF.
  apply Forall2_cons_inv_l in HF as (p0 & ms0 & H0 & HF & ->).
  apply Forall2_cons_inv_l in HF as (x & ms1 & [Hxne Hx] & HF & ->).
  apply Forall2_cons_inv_l in HF as (p2 & ms2 & H2 & HF & ->).
  apply Forall2_cons_inv_l in HF as (d & ms3 & [Hdne Hd] & HF & ->).
  apply Forall2_nil_inv_l in HF as ->. simpl in H0, H2. subst p0 p2.
  exists pre, x, d, rest. repeat split; try done.
  unfold concat. simpl. by rewrite str_app_nil_r, <- !str_app_assoc.
Qed.

Lemma search_docket_pieces link ms :
  search docket_re link = Some ms →
  ∃ pre x post,
    ms = ["docket/"; x] ∧ link = pre +:+ "docket/" +:+ x +:+ post ∧
    x ≠ "" ∧ all id_char x = true.
Proof.
  intros H. apply search_sound in H as (HF & pre & rest & ->).
  unfold docket_re in HF.
  apply Forall2_cons_inv_l in HF as (p0 & ms0 & H0 & HF & ->).
  apply Forall2_cons_inv_l in HF as (x & ms1 & [Hxne Hx] & HF & ->).
  apply Forall2_nil_inv_l in HF as ->. simpl in H0. subst p0.
  exists pre, x, rest. repeat split; try done.
  unfold concat. simpl. by rewrite str_app_nil_r, <- !str_app_assoc.
Qed.

(** What the resolver returns is an identifier of the link: with the
    kind ["document"], the link holds ["document"] and the identifier
    stands after a ["document/"] and is a run of [[A-Z0-9-]], a hyphen and
    digits; the kind ["docket"] is given only to a link that does not
    hold ["document"], and the identifier is the run of [[A-Z0-9-]] after
    a ["docket/"]. *)
Theorem resolver_result_well_formed link id kind :
  extract_docket_id_or_document_id link = (Some id, Some kind) →
  (kind = "document" ∧ contains "document" link = true ∧
   ∃ pre x d post,
     link = pre +:+ "document/" +:+ id +:+ post ∧ id = x +:+ "-" +:+ d ∧
     x ≠ "" ∧ all id_char x = true ∧ d ≠ "" ∧ all digit d = true)
  ∨ (kind = "docket" ∧ contains "document" link = false ∧
     ∃ pre post,
       link = pre +:+ "docket/" +:+ id +:+ post ∧
       id ≠ "" ∧ all id_char id = true).
Proof.
  unfold extract_docket_id_or_document_id. intros H.
  destruct (contains "document" link) eqn:Hdoc.
  - destruct (search document_re link) as [ms|] eqn:E; [|done].
    apply search_document_pieces in E
      as (pre & x & d & post & -> & -> & Hxne & Hx & Hdne & Hd).
    injection H as <- <-. left. split; [done|]. split; [done|].
    exists pre, x, d, post. unfold group1, concat. simpl.
    rewrite str_app_nil_r. repeat split; try done.
    by rewrite <- !str_app_assoc.
  - destruct (contains "docket" link); [|done].
    destruct (search docket_re link) as [ms|] eqn:E; [|done].
    apply search_docket_pieces in E as (pre & x & post & -> & -> & Hxne & Hx).
    injection H as <- <-. right. split; [done|]. split; [done|].
    exists pre, post. unfold group1, concat. simpl.
    by rewrite str_app_nil_r.
Qed.

Lemma resolver_result_well_formed_witness :
  ∃ pre post,
    "https://www.regulations.gov/docket/FSIS-2011-0012/comments"
    = pre +:+ "docket/" +:+ "FSIS-2011-0012" +:+ post.
Proof.
  destruct (resolver_result_well_formed
              "https://www.regulations.gov/docket/FSIS-2011-0012/comments"
              "FSIS-2011-0012" "docket" eq_refl)
    as [(Hkind & _)|(_ & _ & pre & post & H & _)]; [done|].
  by exists pre, post.
Defined.

Lemma docket_no_overlap c p rest :
  startswith "docket/" (String c p +:+ "docket/" +:+ rest) = true →
  startswith "docket/" (String c p) = true.
Proof.
  intros H. rewrite str_app_cons in H.
  do 6 (destruct p as [|? p];
        [ exfalso; cbn in H;
          repeat match goal with
                 | H : _ && _ = true |- _ =>
                     apply andb_true_iff in H as [? ?]
                 end; discriminate
        | rewrite str_app_cons in H ]).
  exact H.
Qed.

Lemma search_docket_skip_prefix pre tail ms :
  contains "docket/" pre = false →
  match_atoms docket_re ("docket/" +:+ tail) = Some ms →
  search docket_re (pre +:+ "docket/" +:+ tail) = Some ms.
Proof.
  intros Hpre Hm. induction pre as [|c pre IH].
  - rewrite str_app_nil_l. by apply search_here.
  - cbn [contains] in Hpre. apply orb_false_iff in Hpre as [Hc Hpre].
    rewrite str_app_cons, search_next; [by apply IH|].
    unfold docket_re. rewrite match_atoms_Lit, match_lit_None; [done|].
    destruct (startswith "docket/" (String c (pre +:+ "docket/" +:+ tail)))
      eqn:E; [|done].
    rewrite <- str_app_cons in E. apply docket_no_overlap in E.
    congruence.
Qed.

Lemma id_chars_greedy x post :
  all id_char x = true → ends_id post = true →
  star_then id_char (match_atoms []) (x +:+ post) = Some (x, []).
Proof.
  intros Hx Hpost. set (k := match_atoms []).
  induction x as [|c x IH].
  - rewrite str_app_nil_l. destruct post as [|c post]; [done|].
    cbn [ends_id] in Hpost. apply negb_true_iff in Hpost.
    cbn [star_then]. by rewrite Hpost.
  - cbn [all] in Hx. apply andb_true_iff in Hx as [Hc Hx].
    rewrite str_app_cons. cbn [star_then]. by rewrite Hc, (IH Hx).
Qed.

(** A link that does not hold ["document"] and whose first ["docket/"] is
    followed by a run of [[A-Z0-9-]] resolves to the whole run, up to the
    end of the link or the first character outside the class, with the
    kind ["docket"]. *)
Theorem resolver_docket pre x post :
  contains "document" (pre +:+ "docket/" +:+ x +:+ post) = false →
  contains "docket/" pre = false →
  x ≠ "" → all id_char x = true → ends_id post = true →
  extract_docket_id_or_document_id (pre +:+ "docket/" +:+ x +:+ post)
  = (Some x, Some "docket").
Proof.
  intros Hdoc Hpre Hxne Hx Hpost.
  unfold extract_docket_id_or_document_id. rewrite Hdoc.
  change ("docket/" +:+ x +:+ post) with ("docket" +:+ "/" +:+ x +:+ post)
    at 1.
  rewrite contains_app.
  assert (match_atoms docket_re ("docket/" +:+ x +:+ post)
          = Some ["docket/"; x]) as Hm.
  { destruct x as [|c x]; [done|].
    cbn [all] in Hx. apply andb_true_iff in Hx as [Hc Hx].
    unfold docket_re.
    rewrite match_atoms_Lit, match_lit_app, str_app_cons,
      match_atoms_Plus, Hc.
    by rewrite (id_chars_greedy x post Hx Hpost). }
  rewrite (search_docket_skip_prefix pre _ _ Hpre Hm).
  unfold group1, concat. simpl. by rewrite str_app_nil_r.
Qed.

Lemma resolver_docket_witness :
  extract_docket_id_or_document_id
    "https://www.regulations.gov/docket/FSIS-2011-0012/comments"
  = (Some "FSIS-2011-0012", Some "docket").
Proof.
  apply (resolver_docket "https://www.regulations.gov/" "FSIS-2011-0012"
           "/comments"); first [ reflexivity | discriminate ].
Defined.

End resolver_more.

(** ** The attachments of a comment *)

Section attachments_more.
Import PyStr Downloader.

Lemma fetch_formats_entries srv id i formats acc :
  fetch_formats srv id i formats acc =
  acc ++ ((λ u, {| url := u; file_path := download_file srv u id i |})
            <$> omap (λ u, u) formats).
Proof.
  revert acc. induction formats as [|[u|] formats IH]; intros acc.
  - by rewrite app_nil_r.
  - cbn [fetch_formats]. rewrite IH. by rewrite <- app_assoc.
  - cbn [fetch_formats]. by rewrite IH.
Qed.

Lemma fetch_attachments_from_entries srv id i atts acc :
  fetch_attachments_from srv id i atts acc =
  acc ++ mjoin (imap (λ j formats,
                        (λ u, {| url := u;
                                 file_path := download_file srv u id (i + j) |})
                          <$> omap (λ u, u) (default [] formats)) atts).
Proof.
  revert i acc. induction atts as [|[formats|] atts IH]; intros i acc.
  - by rewrite app_nil_r.
  - cbn [fetch_attachments_from]. rewrite IH, fetch_formats_entries.
    cbn [imap mjoin list_join default]. rewrite Nat.add_0_r, <- app_assoc.
    do 2 f_equal. f_equal. apply imap_ext. intros j x _. simpl.
    by replace (i + S j) with (S (i + j)) by lia.
  - cbn [fetch_attachments_from]. rewrite IH.
    cbn [imap mjoin list_join default omap list_omap fmap list_fmap app].
    do 2 f_equal. apply imap_ext. intros j x _. simpl.
    by replace (i + S j) with (S (i + j)) by lia.
Qed.

Lemma entries_urls srv id i (atts : list (option (list (option string)))) :
  url <$> mjoin (imap (λ j formats,
                   (λ u, {| url := u;
                            file_path := download_file srv u id (i + j) |})
                     <$> omap (λ u, u) (default [] formats)) atts)
  = mjoin ((λ formats, omap (λ u, u) (default [] formats)) <$> atts).
Proof.
  revert i. induction atts as [|formats atts IH]; intros i; [done|].
  cbn [imap mjoin list_join fmap list_fmap]. rewrite fmap_app. f_equal.
  - generalize (omap (λ u : option string, u) (default [] formats)).
    intros l. induction l as [|u l IHl]; [done|]. simpl. by f_equal.
  - etrans; [|apply (IH (S i))]. do 2 f_equal. apply imap_ext.
    intros j x _. simpl. by replace (i + S j) with (S (i + j)) by lia.
Qed.

(** Every file URL the repository lists for a comment gives one entry, in
    the order of the listing, whether its download succeeds or not; the
    path of an entry is [null] exactly when the download of its URL
    failed. A failed attachment request gives no entry. *)
Theorem fetch_attachments_one_entry_per_url srv comment_id :
  url <$> fetch_attachments srv comment_id
  = mjoin ((λ formats, omap (λ u, u) (default [] formats))
             <$> default [] (attachments_of srv comment_id))
  ∧ ∀ att, att ∈ fetch_attachments srv comment_id →
      (file_path att = None ↔ requests_get_file srv (url att) = None).
Proof.
  unfold fetch_attachments.
  destruct (attachments_of srv comment_id) as [atts|]; simpl.
  2:{ split; [done|]. by intros att ?%elem_of_nil. }
  rewrite fetch_attachments_from_entries. simpl. split.
  - apply (entries_urls srv comment_id 0).
  - intros att Hin. apply list_elem_of_join in Hin as (l & Hatt & Hl).
    apply list_elem_of_lookup in Hl as [j Hl].
    rewrite list_lookup_imap in Hl.
    destruct (atts !! j) as [formats|]; [|done]. simpl in Hl.
    injection Hl as <-.
    apply list_elem_of_fmap in Hatt as (u & -> & _). simpl.
    unfold download_file. by destruct (requests_get_file srv u).
Qed.

Lemma fetch_attachments_one_entry_per_url_witness :
  requests_get_file Samples.broken_file_api
    "https://downloads.regulations.gov/a.pdf" = None.
Proof.
  destruct (fetch_attachments_one_entry_per_url Samples.broken_file_api
              "FSIS-2011-0012-0001") as [_ H].
  apply (H {| url := "https://downloads.regulations.gov/a.pdf";
              file_path := None |}).
  - apply list_elem_of_here.
  - reflexivity.
Defined.

Lemma str_length_app (s t : string) :
  String.length (s +:+ t) = String.length s + String.length t.
Proof. induction s as [|c s IH]; [done|]. rewrite str_app_cons. simpl. lia. Qed.

Lemma eqb_length_ne (s t : string) :
  String.length s ≠ String.length t → String.eqb s t = false.
Proof. intros H. apply String.eqb_neq. by intros ->. Qed.

Lemma endswith_short suf s :
  String.length s < String.length suf → endswith suf s = false.
Proof.
  induction s as [|c s IH]; intros H; cbn [endswith].
  - rewrite eqb_length_ne; [done|]. simpl in *. lia.
  - rewrite eqb_length_ne, IH; [done| |]; simpl in *; lia.
Qed.

Lemma endswith_app_same_length suf a t :
  String.length suf = String.length t →
  endswith suf (a +:+ t) = String.eqb suf t.
Proof.
  intros Hlen. induction a as [|c a IH].
  - rewrite str_app_nil_l. destruct t as [|c t]; cbn [endswith].
    + by rewrite orb_false_r.
    + rewrite (endswith_short suf t), orb_false_r; [done|]. simpl in *. lia.
  - rewrite str_app_cons. cbn [endswith]. rewrite IH.
    rewrite eqb_length_ne; [done|]. simpl. rewrite str_length_app. lia.
Qed.

Lemma lower_app s t : lower (s +:+ t) = lower s +:+ lower t.
Proof.
  induction s as [|c s IH]; [done|]. rewrite str_app_cons. simpl.
  by rewrite IH.
Qed.

Lemma get_extension_cases content_type :
  get_extension_from_content_type content_type =
  match content_type with
  | Some s =>
      if String.eqb s "application/pdf" then Some "pdf"
      else if String.eqb s "image/jpeg" then Some "jpg"
      else if String.eqb s "image/png" then Some "png"
      else if String.eqb s "application/zip" then Some "zip"
      else None
  | None => None
  end.
Proof.
  destruct content_type as [s|]; [|done].
  do 16 (destruct s as [|[[] [] [] [] [] [] [] []] s];
           try reflexivity).
Qed.

(** A file is saved under a name that ends in [.pdf] exactly when the
    answer declares the content type [application/pdf]; the extension is
    in lower case, so the two tests of the comment processor (on the path
    and on the lower-cased path) agree on every saved file. *)
Theorem downloaded_pdf_extension srv file_url comment_id attachment_index p :
  download_file srv file_url comment_id attachment_index = Some p →
  (endswith ".pdf" p = true ↔
   requests_get_file srv file_url = Some (Some "application/pdf"))
  ∧ endswith ".pdf" (lower p) = endswith ".pdf" p.
Proof.
  unfold download_file.
  destruct (requests_get_file srv file_url) as [content_type|]; [|done].
  intros [= <-].
  set (stem := "./Downloads/USDA_JSON/attachments/" +:+ comment_id +:+ "_"
               +:+ pretty attachment_index).
  assert (∀ ext,
    "./Downloads/USDA_JSON/attachments/" +:+ comment_id +:+ "_"
      +:+ pretty attachment_index +:+ "." +:+ ext
    = stem +:+ "." +:+ ext) as Hstem.
  { intros ext. unfold stem. by rewrite <- !str_app_assoc. }
  rewrite Hstem, get_extension_cases, lower_app.
  destruct content_type as [s|].
  - destruct (String.eqb_spec s "application/pdf") as [->|Hpdf].
    { rewrite !endswith_app_same_length by done. done. }
    assert (Some (Some s) ≠ Some (Some "application/pdf")) by congruence.
    destruct (String.eqb s "image/jpeg");
      [|destruct (String.eqb s "image/png");
        [|destruct (String.eqb s "application/zip")]];
      rewrite !endswith_app_same_length by done; done.
  - rewrite !endswith_app_same_length by done. done.
Qed.

Lemma downloaded_pdf_extension_witness :
  endswith ".pdf"
    "./Downloads/USDA_JSON/attachments/FSIS-2011-0012-0001_0.pdf" = true.
Proof.
  apply (downloaded_pdf_extension
           {| get_comments_by_object_id := λ _ _ _, None;
              fetch_full_comment_data := λ _, None;
              attachments_of := λ _, None;
              requests_get_file := λ _, Some (Some "application/pdf") |}
           "https://downloads.regulations.gov/a.pdf"
           "FSIS-2011-0012-0001" 0); reflexivity.
Defined.

End attachments_more.

(** ** The ingestion loop on any repository *)

Section ingestor_more.
Import PyStr Downloader.

Lemma collect_page_counts srv total data cleaned d :
  ∃ cs,
    collect_page srv total data cleaned d = (cleaned ++ cs, d + length cs) ∧
    ∀ n, total = Limit n →
         (Z.of_nat (d + length cs) ≤ Z.max n (Z.of_nat d))%Z.
Proof.
  revert cleaned d. induction data as [|s data IH]; intros cleaned d.
  - exists []. rewrite app_nil_r. split; [by rewrite Nat.add_0_r|].
    intros n _. simpl. lia.
  - cbn [collect_page]. destruct (reached d total) eqn:Hr.
    + exists []. rewrite app_nil_r. split; [by rewrite Nat.add_0_r|].
      intros n _. simpl. lia.
    + destruct (self_link s ≫= fetch_full_comment_data srv) as [full|].
      * edestruct IH as (cs & -> & Hbound).
        eexists (_ :: cs). rewrite <- app_assoc. split.
        { simpl. f_equal. lia. }
        intros n ->. specialize (Hbound n eq_refl).
        simpl in Hr. apply bool_decide_eq_false in Hr. simpl length. lia.
      * apply IH.
Qed.

Lemma fetch_pages_bookkeeping fuel srv object_id total p st st' :
  fetch_pages fuel srv object_id total p st = Some st' →
  1 ≤ p →
  requested st = seq 1 (p - 1) →
  page <$> written st = seq 1 (p - 1) →
  downloaded st = total_entries (written st) →
  (∀ n, total = Limit n → (Z.of_nat (downloaded st) ≤ Z.max n 0)%Z) →
  ∃ k, 1 ≤ k ∧ requested st' = seq 1 k ∧
       (page <$> written st' = seq 1 k ∨
        page <$> written st' = seq 1 (k - 1)) ∧
       downloaded st' = total_entries (written st') ∧
       (∀ n, total = Limit n →
             (Z.of_nat (downloaded st') ≤ Z.max n 0)%Z).
Proof.
  revert p st. induction fuel as [|fuel IH];
    intros p st Hrun Hp Hreq Hwr Hcount Hlim; [done|].
  cbn [fetch_pages requested written downloaded] in Hrun.
  assert (seq 1 (p - 1) ++ [p] = seq 1 p) as Hseq.
  { replace p with (S (p - 1)) at 3 by lia. rewrite seq_S. do 2 f_equal. lia. }
  destruct (get_comments_by_object_id srv object_id page_size p)
    as [[|s data]|].
  - injection Hrun as <-. exists p. simpl. rewrite Hreq, Hseq. auto 10.
  - destruct (collect_page_counts srv total (s :: data) [] (downloaded st))
      as (cs & Hcollect & Hbound).
    rewrite Hcollect in Hrun. simpl app in Hrun.
    assert (total_entries
              (written st ++ [{| page := p; entries := cs |}])
            = downloaded st + length cs) as Htotal.
    { unfold total_entries in *. rewrite sum_list_with_app. simpl. lia. }
    assert (∀ n, total = Limit n →
                 (Z.of_nat (downloaded st + length cs) ≤ Z.max n 0)%Z)
      as Hlim'.
    { intros n Hn. specialize (Hbound n Hn). specialize (Hlim n Hn). lia. }
    destruct (_ || _).
    + injection Hrun as <-. exists p. simpl.
      rewrite Hreq, Hseq, fmap_app, Hwr. simpl. rewrite Hseq. auto 10.
    + apply IH in Hrun; simpl; try done; try lia.
      * by rewrite Nat.sub_0_r, Hreq, Hseq.
      * by rewrite Nat.sub_0_r, fmap_app, Hwr; simpl; rewrite Hseq.
  - injection Hrun as <-. exists p. simpl. rewrite Hreq, Hseq. auto 10.
Qed.

(** Whatever the repository answers, a run that ends has asked for the
    pages 1 to [k], each once and in order, and has written one file for
    each of them, the last one apart when it came back empty or failed;
    its counter is the number of entries in the files, and with a limit
    [N ≥ 0] the files hold at most [N] entries. *)
Theorem ingestion_bookkeeping fuel srv object_id total st :
  fetch_all_comments fuel srv object_id total = Some st →
  ∃ k, 1 ≤ k ∧ requested st = seq 1 k ∧
       (page <$> written st = seq 1 k ∨
        page <$> written st = seq 1 (k - 1)) ∧
       downloaded st = total_entries (written st) ∧
       (∀ n, total = Limit n → (0 ≤ n)%Z →
             (Z.of_nat (total_entries (written st)) ≤ n)%Z).
Proof.
  intros Hrun. unfold fetch_all_comments in Hrun.
  apply fetch_pages_bookkeeping in Hrun
    as (k & Hk & Hreq & Hwr & Hcount & Hlim); try done.
  - exists k. repeat split; try done.
    intros n Hn Hnonneg. specialize (Hlim n Hn). rewrite <- Hcount. lia.
  - intros n _. simpl. lia.
Qed.

Lemma ingestion_bookkeeping_witness :
  ∃ st k,
    fetch_all_comments 1 Samples.five_comment_api "0900006480a1b2c3" (Limit 3)
    = Some st ∧
    requested st = seq 1 k ∧ downloaded st = total_entries (written st).
Proof.
  eexists. 
  edestruct (ingestion_bookkeeping 1 Samples.five_comment_api
               "0900006480a1b2c3" (Limit 3))
    as (k & _ & Hreq & _ & Hcount & _); [reflexivity|].
  exists k. split; [reflexivity|]. by split.
Defined.

End ingestor_more.

(** ** The names of the page files, and [main] *)

Section main_more.
Import PyStr Regex Downloader.

Example page_filename_sample :
  page_filename "./Downloads/USDA_JSON/comments_FSIS-2011-0012-0001.json" 12
  = "./Downloads/USDA_JSON/comments_FSIS-2011-0012-0001_page_12.json".
Proof. reflexivity. Qed.

Lemma replace_go_skip old new pre rest :
  replace_go old new (String.length pre) (pre +:+ rest)
  = replace_go old new 0 rest.
Proof.
  induction pre as [|c pre IH]; [by destruct rest|].
  rewrite str_app_cons. by cbn [String.length replace_go].
Qed.

Lemma replace_all_first old s :
  old ≠ "" → contains old s = true →
  ∃ a rest, s = a +:+ old +:+ rest ∧
    ∀ new, replace_all old new s = a +:+ new +:+ replace_all old new rest.
Proof.
  intros Hold. unfold replace_all.
  induction s as [|c s IH]; cbn [contains]; intros H.
  - rewrite orb_false_r in H. by destruct old.
  - destruct (startswith old (String c s)) eqn:Hstart.
    + apply startswith_inv in Hstart as [rest Hs].
      exists "", rest. split; [done|]. intros new. rewrite str_app_nil_l.
      cbn [replace_go].
      assert (startswith old (String c s) = true) as ->.
      { rewrite Hs. apply startswith_app. }
      destruct old as [|c' old]; [done|].
      rewrite str_app_cons in Hs. injection Hs as -> ->.
      replace (String.length (String c' old) - 1) with (String.length old)
        by (simpl; lia).
      by rewrite replace_go_skip.
    + simpl in H. destruct (IH H) as (a & rest & -> & Hr).
      exists (String c a), rest. split; [done|]. intros new.
      cbn [replace_go]. rewrite Hstart, Hr. by rewrite str_app_cons.
Qed.

Lemma replace_all_absent old new s :
  contains old s = false → replace_all old new s = s.
Proof.
  unfold replace_all. induction s as [|c s IH]; [done|].
  cbn [contains]. intros [Hstart Hrest]%orb_false_iff.
  cbn [replace_go]. by rewrite Hstart, IH.
Qed.

Lemma pretty_N_char_digit x : digit (pretty_N_char x) = true.
Proof. unfold pretty_N_char. by repeat case_match. Qed.

Lemma pretty_N_go_digits x s :
  all digit s = true → all digit (pretty_N_go x s) = true.
Proof.
  revert s. induction (N.lt_wf_0 x) as [x _ IH]; intros s Hs.
  assert (x = 0 ∨ 0 < x)%N as [->|Hx] by lia; [done|].
  rewrite pretty_N_go_step by done. apply IH; [by apply N.div_lt|].
  simpl. by rewrite pretty_N_char_digit.
Qed.

Lemma pretty_nat_digits (n : nat) : all digit (pretty n) = true.
Proof.
  unfold pretty, pretty_nat, pretty, pretty_N.
  case_decide; [done|]. by apply pretty_N_go_digits.
Qed.

Lemma digits_before_dot p q x y :
  all digit p = true → all digit q = true →
  p +:+ String "." x = q +:+ String "." y → p = q.
Proof.
  revert q. induction p as [|c p IH]; intros [|d q] Hp Hq H.
  - done.
  - rewrite str_app_nil_l, str_app_cons in H. injection H as <- _.
    by simpl in Hq.
  - rewrite str_app_nil_l, str_app_cons in H. injection H as -> _.
    by simpl in Hp.
  - rewrite !str_app_cons in H. injection H as -> H.
    simpl in Hp, Hq.
    apply andb_true_iff in Hp as [_ Hp]. apply andb_true_iff in Hq as [_ Hq].
    by rewrite (IH q Hp Hq H).
Qed.

(** For a file name that holds [.json], as the one [main] builds, the
    pages of a run are written to different files. A file name without
    [.json] is left as it is, so that every page is written to that one
    file. *)
Theorem page_filenames_distinct filename :
  (contains ".json" filename = true →
   ∀ n m, page_filename filename n = page_filename filename m → n = m)
  ∧ (contains ".json" filename = false →
     ∀ n, page_filename filename n = filename).
Proof.
  split.
  - intros Hjson n m. unfold page_filename.
    destruct (replace_all_first ".json" filename)
      as (a & rest & _ & Hr); [done|done|].
    rewrite !Hr. intros H. apply (inj _) in H.
    rewrite <- !str_app_assoc in H. apply (inj _) in H.
    apply (inj pretty).
    eapply digits_before_dot; [apply pretty_nat_digits..|exact H].
  - intros Hnone n. by apply replace_all_absent.
Qed.

Lemma page_filenames_distinct_witness :
  page_filename "./Downloads/USDA_JSON/comments_FSIS-2011-0012-0001.json" 1
  ≠ page_filename "./Downloads/USDA_JSON/comments_FSIS-2011-0012-0001.json" 2
  ∧ page_filename "comments" 2 = "comments".
Proof.
  split.
  - intros H.
    apply (proj1 (page_filenames_distinct
                    "./Downloads/USDA_JSON/comments_FSIS-2011-0012-0001.json")
             eq_refl 1 2) in H.
    discriminate.
  - apply (proj2 (page_filenames_distinct "comments") eq_refl 2).
Defined.

Lemma resolver_id_not_empty link id kind :
  extract_docket_id_or_document_id link = (Some id, kind) → id ≠ "".
Proof.
  unfold extract_docket_id_or_document_id. intros H.
  destruct (contains "document" link).
  - destruct (search document_re link) as [ms|] eqn:E; [|done].
    apply search_document_pieces in E
      as (pre & x & d & post & -> & _ & Hxne & _).
    injection H as <- _. unfold group1, concat. simpl.
    destruct x; [done|]. by rewrite str_app_cons.
  - destruct (contains "docket" link); [|done].
    destruct (search docket_re link) as [ms|] eqn:E; [|done].
    apply search_docket_pieces in E as (pre & x & post & -> & _ & Hxne & _).
    injection H as <- _. unfold group1, concat. simpl.
    by rewrite str_app_nil_r.
Qed.

(** [main] starts the ingestion for a document link only, once the
    answer to the second prompt is read and the object id of the document
    is found. A link the resolver rejects ends [main] before the second
    prompt is read; a docket link is resolved, but ends [main] without a
    request for comments. *)
Theorem main_ingests_documents_only fuel srv env link answer :
  (∀ object_id filename total run,
     main fuel srv env link answer = Ok (Ran object_id filename total run) ↔
     ∃ id,
       extract_docket_id_or_document_id link = (Some id, Some "document") ∧
       read_total env answer = Ok total ∧
       fetch_object_id_from_document env id = Some object_id ∧
       filename = "./Downloads/USDA_JSON/comments_" +:+ id +:+ ".json" ∧
       run = fetch_all_comments fuel srv object_id total)
  ∧ (extract_docket_id_or_document_id link = (None, None) →
     main fuel srv env link answer = Ok NoRun)
  ∧ (∀ id, extract_docket_id_or_document_id link = (Some id, Some "docket") →
     ∀ outcome, main fuel srv env link answer = Ok outcome →
                outcome = NoRun).
Proof.
  unfold main. split; [|split].
  - intros object_id filename total run.
    destruct (extract_docket_id_or_document_id link) as [[id|] kind] eqn:E.
    2:{ split; [done|]. by intros (id & [=] & _). }
    pose proof (resolver_id_not_empty _ _ _ E) as Hid.
    destruct id as [|c id]; [done|].
    destruct (read_total env answer) as [total'|e]; simpl.
    2:{ split; [done|]. by intros (id' & _ & [=] & _). }
    case_bool_decide as Hkind.
    2:{ split; [done|]. intros (id' & [= <- Hk] & _). congruence. }
    subst kind.
    destruct (fetch_object_id_from_document env (String c id))
      as [object_id'|] eqn:Hobj.
    + split.
      * intros [= <- <- <- <-]. by exists (String c id).
      * intros (id' & [= <-] & [= <-] & Hobj' & -> & ->).
        rewrite Hobj in Hobj'. by injection Hobj' as ->.
    + split; [done|]. intros (id' & [= <-] & _ & Hobj' & _). congruence.
  - by intros ->.
  - intros id -> outcome. simpl.
    destruct id; [by intros [= <-]|].
    destruct (read_total env answer); simpl; [|done].
    by intros [= <-].
Qed.

Lemma main_ingests_documents_only_witness :
  (∀ outcome,
     main 5 Samples.five_comment_api
       {| fetch_object_id_from_document := λ _, Some "0900006480a1b2c3";
          py_int := λ _, Ok 3%Z |}
       "https://www.regulations.gov/docket/FSIS-2011-0012" "3"
     = Ok outcome → outcome = NoRun)
  ∧ main 5 Samples.five_comment_api
      {| fetch_object_id_from_document := λ _, Some "0900006480a1b2c3";
         py_int := λ _, Raise ValueError |}
      "https://www.regulations.gov/faq" "three"
    = Ok NoRun.
Proof.
  split.
  - destruct (main_ingests_documents_only 5 Samples.five_comment_api
                {| fetch_object_id_from_document :=
                     λ _, Some "0900006480a1b2c3";
                   py_int := λ _, Ok 3%Z |}
                "https://www.regulations.gov/docket/FSIS-2011-0012" "3")
      as (_ & _ & Hdocket).
    apply (Hdocket "FSIS-2011-0012" eq_refl).
  - by apply main_ingests_documents_only.
Defined.

End main_more.

(** ** The structured extractor: the block, the fields, the prompt *)

Section structured_more.
Import PyStr Regex LLMModel.

Lemma match_atoms_Star cls r s :
  match_atoms (Star cls :: r) s =
  match star_then cls (match_atoms r) s with
  | Some (m, ms) => Some (m :: ms)
  | None => None
  end.
Proof. reflexivity. Qed.

Lemma no_closing_brace c :
  contains "}" c = false →
  star_then (λ _, true) (match_atoms [Lit "}"]) c = None.
Proof.
  set (k := match_atoms [Lit "}"]).
  induction c as [|x c IH]; [done|].
  cbn [contains startswith]. rewrite andb_true_r.
  intros [Hx Hc]%orb_false_iff. cbn [star_then]. rewrite (IH Hc).
  unfold k. rewrite match_atoms_Lit. cbn [match_lit]. by rewrite Hx.
Qed.

Lemma last_closing_brace b c :
  contains "}" c = false →
  star_then (λ _, true) (match_atoms [Lit "}"]) (b +:+ "}" +:+ c)
  = Some (b, ["}"]).
Proof.
  intros Hc. induction b as [|x b IH].
  - rewrite str_app_nil_l. change ("}" +:+ c) with (String "}" c).
    cbn [star_then]. rewrite (no_closing_brace c Hc).
    by rewrite match_atoms_Lit.
  - rewrite str_app_cons. cbn [star_then]. by rewrite IH.
Qed.

Lemma search_skip_no_opening_brace a t :
  contains "{" a = false →
  search json_block_re (a +:+ t) = search json_block_re t.
Proof.
  induction a as [|x a IH]; [done|].
  cbn [contains startswith]. rewrite andb_true_r.
  intros [Hx Ha]%orb_false_iff.
  rewrite str_app_cons, search_next; [by apply IH|].
  unfold json_block_re. rewrite match_atoms_Lit. cbn [match_lit].
  by rewrite Hx.
Qed.

(** The block [extract_json_block] takes runs from the first opening
    brace of the text to its last closing brace: when the text holds two
    objects, the block spans both and what is between them. *)
Theorem extract_json_block_span a b c :
  contains "{" a = false → contains "}" c = false →
  extract_json_block (a +:+ "{" +:+ b +:+ "}" +:+ c)
  = Ok ("{" +:+ b +:+ "}").
Proof.
  intros Ha Hc. unfold extract_json_block.
  rewrite (search_skip_no_opening_brace a _ Ha).
  rewrite (search_here json_block_re _ ["{"; b; "}"]).
  - unfold concat. simpl. by rewrite str_app_nil_r.
  - unfold json_block_re.
    rewrite match_atoms_Lit, match_lit_app, match_atoms_Star.
    by rewrite (last_closing_brace b c Hc).
Qed.

Lemma extract_json_block_span_witness :
  extract_json_block "First {1} and then {2}."
  = Ok "{1} and then {2}".
Proof.
  apply (extract_json_block_span "First " "1} and then {2" ".");
    reflexivity.
Defined.

(** When the block decodes to a dict that has the key ["issues"], the
    record is built field by field: a key that is missing gets its own
    default (["Unknown"], or ["No"] for the support), the others keep
    the decoded value, and the issues are the decoded list, or the
    one-element list of the decoded value when it is not a list. *)
Theorem classify_parsed
    svc comment_text pdf_attached content block items v :
  chat svc (truncate comment_text) pdf_attached = Ok (Some content) →
  extract_json_block (strip content) = Ok block →
  json_loads svc block = Ok (JDict items) →
  assoc "issues" items = Some v →
  classify_comment_by_issue svc comment_text pdf_attached
  = Ok {| who_type := default (JStr "Unknown") (assoc "who_type" items);
          who_name := default (JStr "Unknown") (assoc "who_name" items);
          what := default (JStr "Unknown") (assoc "what" items);
          why := default (JStr "Unknown") (assoc "why" items);
          issues := if is_list v then v else JList [v];
          scientific_legal_support :=
            default (JStr "No") (assoc "scientific_legal_support" items) |}.
Proof.
  intros Hchat Hblock Hloads Hkey. unfold classify_comment_by_issue. simpl.
  rewrite Hchat. simpl. rewrite Hblock. simpl. rewrite Hloads. simpl.
  rewrite Hkey. simpl. by destruct (is_list v); simpl; rewrite ?Hkey.
Qed.

(** Whatever the service and the decoder do, the issues of the record
    [classify_comment_by_issue] returns are a list. *)
Theorem classify_issues_list svc comment_text pdf_attached :
  ∃ r, classify_comment_by_issue svc comment_text pdf_attached = Ok r ∧
       is_list (issues r) = true.
Proof.
  assert (∀ body : result attributes,
    try_except body
      [ ([ClsJSONDecodeError; ClsAttributeError], λ _, Ok fallback);
        ([ClsException], λ _, Ok fallback) ]
    = match body with Ok r => Ok r | Raise _ => Ok fallback end) as Htry.
  { intros [r|e]; [done|]. by destruct e. }
  unfold classify_comment_by_issue. simpl. rewrite Htry.
  destruct (chat svc (truncate comment_text) pdf_attached) as [[content|]|e];
    simpl; [|by eexists..].
  destruct (extract_json_block (strip content)) as [block|e];
    simpl; [|by eexists].
  destruct (json_loads svc block) as [data|e]; simpl; [|by eexists].
  destruct data as [| | | | |items]; simpl; try by eexists.
  destruct (assoc "issues" items) as [v|] eqn:Hkey; simpl.
  - destruct (is_list v) eqn:Hv; simpl; rewrite ?Hkey; simpl; by eexists.
  - by eexists.
Qed.



Lemma classify_parsed_witness :
  classify_comment_by_issue Samples.scalar_issue_services
    "Please withdraw the rule." false
  = Ok {| who_type := JStr "Unknown"; who_name := JStr "Unknown";
          what := JStr "Withdraw the rule"; why := JStr "Unknown";
          issues := JList [JStr "line speed"];
          scientific_legal_support := JStr "No" |}.
Proof.
  apply (classify_parsed Samples.scalar_issue_services
           "Please withdraw the rule." false
           Samples.scalar_issue_block Samples.scalar_issue_block
           [("what", JStr "Withdraw the rule"); ("issues", JStr "line speed")]
           (JStr "line speed"));
    reflexivity.
Defined.

End structured_more.

(** ** The text extractor never returns an empty text *)

Section extractor_more.
Import PyStr LLMModel.

Lemma rstrip_cons_not_space c s :
  is_space c = false → ∃ r, rstrip (String c s) = String c r.
Proof.
  intros Hc. cbn [rstrip]. destruct (rstrip s); rewrite ?Hc; by eexists.
Qed.

Lemma strip_empty_all_space s : strip s = "" → all is_space s = true.
Proof.
  unfold strip. induction s as [|c s IH]; [done|].
  cbn [lstrip all]. destruct (is_space c) eqn:Hc; [done|].
  destruct (rstrip_cons_not_space c s Hc) as [r ->]. done.
Qed.

Lemma rstrip_idem s : rstrip (rstrip s) = rstrip s.
Proof.
  induction s as [|c s IH]; [done|]. cbn [rstrip].
  destruct (rstrip s) as [|d r] eqn:E.
  - destruct (is_space c) eqn:Hc; [done|]. cbn [rstrip]. by rewrite Hc.
  - cbn [rstrip] in *. by rewrite IH.
Qed.

Lemma lstrip_no_leading_space s : no_leading_space (lstrip s).
Proof.
  induction s as [|c s IH]; [done|]. cbn [lstrip].
  by destruct (is_space c) eqn:Hc.
Qed.

Lemma rstrip_no_leading_space s :
  no_leading_space s → no_leading_space (rstrip s).
Proof.
  destruct s as [|c s]; [done|]. intros Hc.
  by destruct (rstrip_cons_not_space c s Hc) as [r ->].
Qed.

Lemma lstrip_id s : no_leading_space s → lstrip s = s.
Proof. destruct s as [|c s]; [done|]. simpl. by intros ->. Qed.

Lemma strip_idem s : strip (strip s) = strip s.
Proof.
  unfold strip.
  rewrite (lstrip_id (rstrip (lstrip s))).
  - apply rstrip_idem.
  - apply rstrip_no_leading_space, lstrip_no_leading_space.
Qed.

(** Whatever pdfplumber and the OCR engine do, [extract_text_from_pdf]
    returns a text that is not empty and has no blank at either end: the
    text of the pages, the text the OCR engine read, or one of the two
    ["Unknown (...)"] strings. *)
Theorem extract_text_from_pdf_not_empty libs pdf_path :
  ∃ pdf_text,
    extract_text_from_pdf libs pdf_path = Ok pdf_text ∧
    pdf_text ≠ "" ∧ strip pdf_text = pdf_text ∧
    (pdf_text = strip (primary_text libs pdf_path) ∨
     (∃ ocr_text, ocr_pass libs pdf_path = Ok ocr_text ∧
                  pdf_text = strip ocr_text) ∨
     pdf_text = OCR_FAILED ∨ pdf_text = PDF_UNREADABLE).
Proof.
  unfold extract_text_from_pdf. rewrite extract_text_from_pdf_run_unfold.
  destruct (String.eqb_spec (strip (primary_text libs pdf_path)) "")
    as [Hblank|Htext]; simpl.
  - destruct (ocr_pass libs pdf_path) as [ocr_text|e].
    + destruct (String.eqb_spec (strip ocr_text) "") as [Hnone|Hsome].
      * eexists. split; [done|]. split; [done|]. split; [done|]. auto.
      * eexists. split; [done|]. rewrite strip_idem.
        split; [done|]. split; [apply strip_idem|]. eauto.
    + eexists. split; [done|]. split; [done|]. split; [done|]. auto.
  - eexists. split; [done|]. split; [done|]. split; [apply strip_idem|].
    auto.
Qed.

Lemma extract_text_from_pdf_not_empty_text libs pdf_path :
  ∃ pdf_text,
    extract_text_from_pdf libs pdf_path = Ok pdf_text ∧ pdf_text ≠ "".
Proof.
  unfold extract_text_from_pdf. rewrite extract_text_from_pdf_run_unfold.
  destruct (String.eqb_spec (strip (primary_text libs pdf_path)) "")
    as [Hblank|Htext]; simpl; [|by eexists].
  destruct (ocr_pass libs pdf_path) as [ocr_text|e]; [|by eexists].
  destruct (String.eqb_spec (strip ocr_text) "") as [Hnone|Hsome];
    [by eexists|].
  eexists. split; [done|]. by rewrite strip_idem.
Qed.

End extractor_more.

(** ** The comment processor: what is skipped, what raises, what is kept *)

Section processor_more.
Import PyStr Downloader LLMModel.

Lemma strings_of_fmap l : strings_of (JStr <$> l) = Ok l.
Proof.
  induction l as [|x l IH]; [done|].
  rewrite fmap_cons. cbn [strings_of]. by rewrite IH.
Qed.

Lemma strings_of_Ok items l : strings_of items = Ok l → items = JStr <$> l.
Proof.
  revert l. induction items as [|v items IH]; intros l H.
  - by injection H as <-.
  - destruct v; try done. simpl in H.
    destruct (strings_of items) as [l'|]; [|done].
    injection H as <-. by rewrite (IH _ eq_refl).
Qed.

Lemma strings_of_Raise items e : strings_of items = Raise e → e = TypeError.
Proof.
  induction items as [|v items IH]; [done|].
  destruct v; simpl; try by intros [= <-].
  destruct (strings_of items); [done|]. intros [= <-]. by apply IH.
Qed.

Lemma join_issues_cases v :
  (∃ l, v = JList (JStr <$> l) ∧ join_issues v = Ok (join ", " l))
  ∨ (¬ string_list v ∧ join_issues v = Raise TypeError).
Proof.
  destruct v as [| | | |items|]; try (right; split; [by intros [l ?]|done]).
  simpl. destruct (strings_of items) as [l|e] eqn:E.
  - left. exists l. by rewrite (strings_of_Ok _ _ E).
  - right. rewrite (strings_of_Raise _ _ E). split; [|done].
    intros [l [= Hl]]. pose proof (strings_of_fmap l) as Hok. congruence.
Qed.

Lemma count_pdfs_cases atts :
  (Exists (λ att, file_path att = None) atts ∧
   count_pdfs atts = Raise AttributeError)
  ∨ (Forall (λ att, is_Some (file_path att)) atts ∧
     ∃ n, count_pdfs atts = Ok n).
Proof.
  induction atts as [|att atts IH].
  - right. split; [constructor|by exists 0].
  - destruct (file_path att) as [path|] eqn:Hpath.
    + destruct IH as [[Hex Hr]|[Hall [n Hn]]].
      * left. split; [by right|]. by apply count_pdfs_null; right.
      * right. split; [constructor; [by rewrite Hpath|done]|].
        simpl. unfold get_file_path. rewrite Hpath, Hn. simpl. by eexists.
    + left. split; [by left|]. by apply count_pdfs_null; left.
Qed.

(** [process_comment] raises in two cases only: an attachment of the
    comment has a [null] path, which raises [AttributeError]; or the
    comment has a text to classify and the issues of the record the
    classification returns are not a list of strings, which makes the
    join raise [TypeError]. *)
Theorem process_comment_raises_iff svc libs fs pdf_folder c e :
  process_comment svc libs fs pdf_folder c = Raise e ↔
  (e = AttributeError ∧ Exists (λ att, file_path att = None) (attachments c))
  ∨ (e = TypeError ∧
     ∃ n texts calls summary,
       count_pdfs (attachments c) = Ok n ∧
       extract_attachments libs fs pdf_folder (attachments c)
         (body_texts c) [] = Ok (texts, calls) ∧
       strip (join (newline +:+ newline) texts) ≠ "" ∧
       classify_comment_by_issue svc
         (strip (join (newline +:+ newline) texts)) (bool_decide (0 < n))
       = Ok summary ∧
       ¬ string_list (issues summary)).
Proof.
  destruct (count_pdfs_cases (attachments c)) as [[Hex Hr]|[Hall [n Hn]]].
  - rewrite (process_comment_null _ _ _ _ _ Hex). split.
    + intros [= <-]. by left.
    + intros [[-> _]|(_ & n & ? & ? & ? & Hn & _)]; [done|congruence].
  - destruct (extract_attachments_present libs fs pdf_folder _
                (body_texts c) [] Hall) as (texts & calls & Hex & _).
    assert (¬ Exists (λ att, file_path att = None) (attachments c)) as Hnone.
    { intros H. apply Exists_exists in H as (att & Hin & Hatt).
      eapply Forall_forall in Hall; [|done]. rewrite Hatt in Hall.
      by destruct Hall. }
    unfold process_comment. rewrite Hn. simpl. rewrite Hex. simpl.
    destruct (String.eqb_spec (strip (join (newline +:+ newline) texts)) "")
      as [Hempty|Hne].
    { split; [done|].
      intros [[_ ?]|(_ & n' & t' & c' & s' & Hn' & Hex' & Hne' & _)];
        [done|].
      by simplify_eq. }
    destruct (classify_comment_by_issue svc _ _) as [summary|e'] eqn:Hcl.
    2:{ exfalso. eapply classify_total. by eexists. }
    simpl. destruct (join_issues_cases (issues summary))
      as [(l & Hl & ->)|[Hns ->]]; simpl.
    + split; [done|].
      intros [[_ ?]|(_ & n' & t' & c' & s' & Hn' & Hex' & _ & Hcl' & Hns)];
        [done|].
      simplify_eq. rewrite Hcl in Hcl'. injection Hcl' as <-.
      destruct Hns. by exists l.
    + split.
      * intros [= <-]. right. split; [done|].
        by exists n, texts, calls, summary.
      * by intros [[_ ?]|[-> _]].
Qed.

Lemma process_comment_raises_iff_witness :
  process_comment Samples.null_issue_services Samples.torn_libs
    Samples.full_disk "attachments"
    {| comment_id := "FSIS-2011-0012-0002";
       text := Some "I support the proposed rule.";
       attachments := [] |}
  = Raise TypeError.
Proof.
  apply process_comment_raises_iff. right. split; [done|].
  exists 0, ["Comment Text: I support the proposed rule."], [],
    {| who_type := JStr "Unknown"; who_name := JStr "Unknown";
       what := JStr "Unknown"; why := JStr "Unknown";
       issues := JList [JNull];
       scientific_legal_support := JStr "No" |}.
  split; [reflexivity|]. split; [reflexivity|]. split; [discriminate|].
  split; [reflexivity|]. intros [l [= H]]. by destruct l.
Defined.

(** A comment whose own text is missing, blank, or ["see attached"] or
    ["see attached file(s)"] in any case, and none of whose attachments
    gives a text (each has a path that does not end in [.pdf], or names a
    file that is not in the folder), is skipped: no record is built for it
    and the service is not asked. *)
Theorem boilerplate_comment_skipped svc libs fs pdf_folder c :
  match text c with
  | Some t =>
      strip t = "" ∨
      lower (strip t) = "see attached file(s)" ∨
      lower (strip t) = "see attached"
  | None => True
  end →
  Forall (λ att, ∃ path, file_path att = Some path ∧
            (endswith ".pdf" path = false ∨
             os_path_exists fs
               (os_path_join fs pdf_folder (os_path_basename fs path))
             = false))
         (attachments c) →
  ∃ n, process_comment svc libs fs pdf_folder c
       = Ok {| pdf_count := n; pdf_attached := bool_decide (0 < n);
               extraction_calls := []; combined_text := "";
               record := None |}.
Proof.
  intros Htext Hatts.
  assert (body_texts c = []) as Hbody.
  { unfold body_texts. destruct (text c) as [t|]; [|done].
    destruct (String.eqb (strip t) "") eqn:Heq; [done|].
    rewrite bool_decide_eq_true_2; [done|].
    destruct Htext as [Ht|[-> | ->]].
    - rewrite Ht in Heq. done.
    - apply list_elem_of_here.
    - apply list_elem_of_further, list_elem_of_here. }
  assert (Forall (λ att, is_Some (file_path att)) (attachments c)) as Hall.
  { eapply Forall_impl; [done|]. intros att (path & -> & _). by eexists. }
  destruct (count_pdfs_present _ Hall) as (n & Hn & _).
  assert (∀ texts calls,
    extract_attachments libs fs pdf_folder (attachments c) texts calls
    = Ok (texts, calls)) as Hex.
  { clear -Hatts. induction Hatts as [|att atts (path & Hp & Hno) _ IH];
      intros texts calls; [done|].
    cbn [extract_attachments]. unfold get_file_path. rewrite Hp. simpl.
    destruct (endswith ".pdf" path); [|done].
    destruct Hno as [?| ->]; done. }
  exists n. unfold process_comment. rewrite Hn. simpl.
  by rewrite Hbody, Hex.
Qed.

Lemma boilerplate_comment_skipped_witness :
  ∃ n, process_comment Samples.null_issue_services Samples.torn_libs
         Samples.full_disk "attachments"
         {| comment_id := "FSIS-2011-0012-0004";
            text := Some " See Attached ";
            attachments :=
              [{| url := "https://downloads.regulations.gov/c";
                  file_path := Some "./attachments/c.docx" |}] |}
       = Ok {| pdf_count := n; pdf_attached := bool_decide (0 < n);
               extraction_calls := []; combined_text := "";
               record := None |}.
Proof.
  apply boilerplate_comment_skipped.
  - right. right. reflexivity.
  - repeat constructor. eexists. split; [reflexivity|]. by left.
Defined.

Lemma all_join p sep parts x :
  all p (join sep parts) = true → x ∈ parts → all p x = true.
Proof.
  induction parts as [|y parts IH]; intros H Hin; [by apply elem_of_nil in Hin|].
  destruct parts as [|z parts].
  - apply list_elem_of_singleton in Hin as ->. done.
  - cbn [join] in H. rewrite !all_app in H.
    apply andb_true_iff in H as [Hy H]. apply andb_true_iff in H as [_ H].
    apply elem_of_cons in Hin as [->|Hin]; [done|]. by apply IH.
Qed.

Lemma extract_attachments_keeps libs fs pdf_folder atts texts calls texts' calls' :
  extract_attachments libs fs pdf_folder atts texts calls
  = Ok (texts', calls') →
  (∀ t, t ∈ texts → t ∈ texts') ∧ (∀ p, p ∈ calls → p ∈ calls').
Proof.
  revert texts calls. induction atts as [|att atts IH]; intros texts calls H.
  - by injection H as <- <-.
  - cbn [extract_attachments] in H.
    destruct (get_file_path att) as [path|]; [|done]. simpl in H.
    destruct (endswith ".pdf" path); [|by apply IH].
    destruct (os_path_exists fs _); [|by apply IH].
    destruct (extract_text_from_pdf libs _) as [pdf_text|]; [|done].
    simpl in H. apply IH in H as [Ht Hc]. split.
    + intros t Hin. apply Ht. destruct (String.eqb pdf_text ""); [done|].
      apply elem_of_app. by left.
    + intros p Hin. apply Hc, elem_of_app. by left.
Qed.

Lemma extract_attachments_pdf libs fs pdf_folder atts texts calls
    texts' calls' att path :
  extract_attachments libs fs pdf_folder atts texts calls
  = Ok (texts', calls') →
  att ∈ atts → file_path att = Some path →
  endswith ".pdf" path = true →
  os_path_exists fs (os_path_join fs pdf_folder (os_path_basename fs path))
  = true →
  path ∈ calls' ∧
  ∃ pdf_text, pdf_text ≠ "" ∧ ("Extracted PDF Text: " +:+ pdf_text) ∈ texts'.
Proof.
  revert texts calls. induction atts as [|a atts IH];
    intros texts calls H Hin Hpath Hpdf Hexists; [by apply elem_of_nil in Hin|].
  cbn [extract_attachments] in H.
  apply elem_of_cons in Hin as [<-|Hin].
  - unfold get_file_path in H. rewrite Hpath in H. simpl in H.
    rewrite Hpdf, Hexists in H.
    destruct (extract_text_from_pdf_not_empty_text libs
                (os_path_join fs pdf_folder (os_path_basename fs path)))
      as (pdf_text & Hrun & Hne).
    rewrite Hrun in H. simpl in H.
    apply String.eqb_neq in Hne as Hne'. rewrite Hne' in H.
    apply extract_attachments_keeps in H as [Ht Hc]. split.
    + apply Hc, elem_of_app. right. apply list_elem_of_here.
    + exists pdf_text. split; [done|].
      apply Ht, elem_of_app. right. apply list_elem_of_here.
  - destruct (get_file_path a) as [path'|]; [|done]. simpl in H.
    destruct (endswith ".pdf" path'); [|by eapply IH].
    destruct (os_path_exists fs
                (os_path_join fs pdf_folder (os_path_basename fs path')));
      [|by eapply IH].
    destruct (extract_text_from_pdf libs _) as [pdf_text|]; [|done].
    simpl in H. by eapply IH.
Qed.

(** A comment with an attachment whose path ends in [.pdf] and whose
    file is in the folder is never skipped as empty, even when nothing can
    be read in the file: the extractor is called for it, its answer (a
    text or an ["Unknown (...)"] string) is part of the text to classify,
    and a record is built whenever the processing of the comment
    returns. *)
Theorem pdf_comment_not_skipped svc libs fs pdf_folder c att path p :
  att ∈ attachments c → file_path att = Some path →
  endswith ".pdf" path = true →
  os_path_exists fs (os_path_join fs pdf_folder (os_path_basename fs path))
  = true →
  process_comment svc libs fs pdf_folder c = Ok p →
  path ∈ extraction_calls p ∧ combined_text p ≠ "" ∧ is_Some (record p).
Proof.
  intros Hin Hpath Hpdf Hexists Hp.
  assert (∃ n texts calls,
    count_pdfs (attachments c) = Ok n ∧
    extract_attachments libs fs pdf_folder (attachments c) (body_texts c) []
    = Ok (texts, calls)) as (n & texts & calls & Hn & Hex).
  { unfold process_comment in Hp.
    destruct (count_pdfs (attachments c)) as [n|]; [|done]. simpl in Hp.
    destruct (extract_attachments _ _ _ _ _ _) as [[texts calls]|]; [|done].
    by exists n, texts, calls. }
  destruct (process_comment_returns _ _ _ _ _ _ _ _ _ Hn Hex Hp)
    as (_ & _ & Hcalls & Hcombined & _).
  destruct (extract_attachments_pdf _ _ _ _ _ _ _ _ _ _
              Hex Hin Hpath Hpdf Hexists)
    as (Hcall & pdf_text & Hne & Htext).
  assert (combined_text p ≠ "") as Hnonempty.
  { rewrite Hcombined. intros Hblank%strip_empty_all_space.
    by apply (all_join _ _ _ _ Hblank) in Htext. }
  split; [by rewrite Hcalls|]. split; [done|].
  unfold process_comment in Hp. rewrite Hn in Hp. simpl in Hp.
  rewrite Hex in Hp. simpl in Hp. rewrite <- Hcombined in Hp.
  apply String.eqb_neq in Hnonempty as Hneq. rewrite Hneq in Hp.
  destruct (classify_comment_by_issue _ _ _); [|done]. simpl in Hp.
  destruct (join_issues _); [|done]. injection Hp as <-. by eexists.
Qed.

Lemma pdf_comment_not_skipped_witness :
  ∃ p,
    process_comment Samples.what_only_services Samples.scan_libs
      Samples.full_disk "attachments" Samples.pdf_only_comment = Ok p ∧
    combined_text p = "Extracted PDF Text: Unknown (OCR failed)" ∧
    "./attachments/FSIS-2011-0012-0006_0.pdf" ∈ extraction_calls p ∧
    combined_text p ≠ "" ∧ is_Some (record p).
Proof.
  eexists. split; [reflexivity|]. split; [reflexivity|].
  apply (pdf_comment_not_skipped Samples.what_only_services
           Samples.scan_libs Samples.full_disk "attachments"
           Samples.pdf_only_comment Samples.pdf_attachment
           "./attachments/FSIS-2011-0012-0006_0.pdf").
  - apply list_elem_of_here.
  - reflexivity.
  - reflexivity.
  - reflexivity.
  - reflexivity.
Defined.

Lemma process_json_comments_from_acc svc libs fs pdf_folder cs acc :
  process_json_comments_from svc libs fs pdf_folder cs acc =
  rs ← process_json_comments_from svc libs fs pdf_folder cs [];
  Ok (acc ++ rs).
Proof.
  revert acc. induction cs as [|c cs IH]; intros acc.
  - simpl. by rewrite app_nil_r.
  - cbn [process_json_comments_from].
    destruct (process_comment svc libs fs pdf_folder c) as [p|]; [|done].
    simpl. destruct (record p) as [data|].
    + rewrite (IH (acc ++ [data])), (IH [data]).
      destruct (process_json_comments_from _ _ _ _ cs []) as [rs|]; [|done].
      simpl. by rewrite <- app_assoc.
    + by rewrite (IH acc).
Qed.

Lemma process_json_comments_from_app svc libs fs pdf_folder cs1 cs2 acc :
  process_json_comments_from svc libs fs pdf_folder (cs1 ++ cs2) acc =
  rs ← process_json_comments_from svc libs fs pdf_folder cs1 acc;
  process_json_comments_from svc libs fs pdf_folder cs2 rs.
Proof.
  revert acc. induction cs1 as [|c cs1 IH]; intros acc; [done|].
  cbn [app process_json_comments_from].
  destruct (process_comment svc libs fs pdf_folder c) as [p|]; [|done].
  simpl. apply IH.
Qed.

(** The table depends on the comments and their order only, not on how
    they are split into PageFiles: [process_all_comments] on the files
    gives what [process_json_comments] gives on one file that holds the
    comments of all of them, the same rows or the same exception. *)
Theorem process_all_comments_concat svc libs fs page_files pdf_folder :
  process_all_comments svc libs fs page_files pdf_folder
  = process_json_comments svc libs fs (mjoin page_files) pdf_folder.
Proof.
  unfold process_json_comments.
  induction page_files as [|cs page_files IH]; [done|].
  cbn [process_all_comments mjoin list_join]. rewrite IH.
  unfold process_json_comments.
  rewrite process_json_comments_from_app.
  destruct (process_json_comments_from _ _ _ _ cs []) as [rs|]; [|done].
  simpl. by rewrite (process_json_comments_from_acc _ _ _ _ _ rs).
Qed.

Lemma process_comment_record_fields svc libs fs pdf_folder c p r :
  process_comment svc libs fs pdf_folder c = Ok p → record p = Some r →
  fr_comment_id r = comment_id c ∧
  fr_comment_link r = "https://www.regulations.gov/comment/" +:+ comment_id c ∧
  (fr_pdf_attachments_present r = "Yes" ∧ 0 < fr_pdf_attachments_count r ∨
   fr_pdf_attachments_present r = "No" ∧ fr_pdf_attachments_count r = 0).
Proof.
  unfold process_comment. intros Hp Hr.
  destruct (count_pdfs (attachments c)) as [n|]; [|done]. simpl in Hp.
  destruct (extract_attachments _ _ _ _ _ _) as [[texts calls]|]; [|done].
  simpl in Hp. destruct (String.eqb _ ""); [by simplify_eq|].
  destruct (classify_comment_by_issue _ _ _); [|done]. simpl in Hp.
  destruct (join_issues _); [|done]. simplify_eq/=.
  split; [done|]. split; [done|].
  case_bool_decide; [left|right]; split; try done; lia.
Qed.

(** The table [process_json_comments] returns has at most one row for a
    comment, and its rows are in the order of the comments; the link of a
    row is the comment address followed by its identifier, and a row
    reports PDF attachments (["Yes"]) exactly when its count of them is
    not zero. *)
Theorem processed_rows_follow_comments svc libs fs comments_data pdf_folder rs :
  process_json_comments svc libs fs comments_data pdf_folder = Ok rs →
  sublist (fr_comment_id <$> rs) (comment_id <$> comments_data) ∧
  Forall (λ r,
    fr_comment_link r
    = "https://www.regulations.gov/comment/" +:+ fr_comment_id r ∧
    (fr_pdf_attachments_present r = "Yes" ∧ 0 < fr_pdf_attachments_count r ∨
     fr_pdf_attachments_present r = "No" ∧ fr_pdf_attachments_count r = 0))
    rs.
Proof.
  unfold process_json_comments. revert rs.
  induction comments_data as [|c cs IH]; intros rs H.
  - injection H as <-. split; constructor.
  - cbn [process_json_comments_from] in H.
    destruct (process_comment svc libs fs pdf_folder c) as [p|] eqn:Hp;
      [|done].
    simpl in H. rewrite process_json_comments_from_acc in H.
    destruct (process_json_comments_from _ _ _ _ cs []) as [rs'|]; [|done].
    simpl in H. injection H as <-.
    destruct (IH rs' eq_refl) as [Hsub Hrows].
    destruct (record p) as [r|] eqn:Hr.
    + destruct (process_comment_record_fields _ _ _ _ _ _ _ Hp Hr)
        as (Hid & Hlink & Hpdf).
      simpl. rewrite Hid. split; [by constructor|].
      constructor; [|done]. by rewrite Hlink, Hid.
    + simpl. split; [by constructor|done].
Qed.

Lemma processed_rows_follow_comments_witness :
  sublist
    (fr_comment_id <$>
       [{| fr_comment_id := "FSIS-2011-0012-0002";
           fr_comment_link :=
             "https://www.regulations.gov/comment/FSIS-2011-0012-0002";
           fr_who_type := JStr "Unknown"; fr_who_name := JStr "Unknown";
           fr_what := JStr "Unknown"; fr_why := JStr "Unknown";
           fr_issues := "Needs manual review";
           fr_scientific_legal_support := JStr "No";
           fr_pdf_attachments_present := "No";
           fr_pdf_attachments_count := 0 |}])
    (comment_id <$>
       [ {| comment_id := "FSIS-2011-0012-0004";
            text := Some "see attached"; attachments := [] |};
         {| comment_id := "FSIS-2011-0012-0002";
            text := Some "I support the proposed rule.";
            attachments := [] |} ]).
Proof.
  apply (processed_rows_follow_comments Samples.prose_services
           Samples.torn_libs Samples.full_disk _ "attachments").
  reflexivity.
Defined.

(** With no [null] path in the PageFiles and a service whose records
    always have a list of strings as issues (as the fallback record has),
    [process_all_comments] returns a table and does not raise, whatever
    pdfplumber, the OCR engine and the filesystem do. *)
Theorem process_all_comments_returns svc libs fs page_files pdf_folder :
  Forall (Forall (λ c, Forall (λ att, is_Some (file_path att))
                         (attachments c))) page_files →
  (∀ comment_text pdf_attached r,
     classify_comment_by_issue svc comment_text pdf_attached = Ok r →
     string_list (issues r)) →
  ∃ rs, process_all_comments svc libs fs page_files pdf_folder = Ok rs.
Proof.
  intros Hpaths Hsvc.
  assert (∀ c, Forall (λ att, is_Some (file_path att)) (attachments c) →
               ∃ p, process_comment svc libs fs pdf_folder c = Ok p) as Hone.
  { intros c Hall. unfold process_comment.
    destruct (count_pdfs_present _ Hall) as (n & -> & _). simpl.
    destruct (extract_attachments_present libs fs pdf_folder _
                (body_texts c) [] Hall) as (texts & calls & -> & _).
    simpl. destruct (String.eqb _ ""); [by eexists|].
    destruct (classify_comment_by_issue svc _ _) as [summary|e] eqn:Hcl.
    2:{ exfalso. eapply classify_total. by eexists. }
    simpl. destruct (join_issues_cases (issues summary))
      as [(l & _ & ->)|[Hns _]]; [by eexists|].
    destruct Hns. by eapply Hsvc. }
  assert (∀ cs acc,
    Forall (λ c, Forall (λ att, is_Some (file_path att)) (attachments c)) cs →
    ∃ rs, process_json_comments_from svc libs fs pdf_folder cs acc = Ok rs)
    as Hfile.
  { induction cs as [|c cs IH]; intros acc Hcs; [by eexists|].
    apply Forall_cons in Hcs as [Hc Hcs].
    cbn [process_json_comments_from].
    destruct (Hone c Hc) as [p ->]. simpl. by apply IH. }
  induction Hpaths as [|cs page_files Hcs _ [rs IH]]; [by eexists|].
  cbn [process_all_comments]. unfold process_json_comments.
  destruct (Hfile cs [] Hcs) as [new ->]. simpl. rewrite IH. by eexists.
Qed.

Lemma process_all_comments_returns_witness :
  ∃ rs, process_all_comments Samples.prose_services Samples.scan_libs
          Samples.full_disk
          [[Samples.pdf_only_comment]; [Samples.upper_case_comment]]
          "attachments"
        = Ok rs.
Proof.
  apply process_all_comments_returns.
  - repeat constructor; by eexists.
  - intros comment_text pdf_attached r Hr.
    assert (classify_comment_by_issue Samples.prose_services comment_text
              pdf_attached = Ok fallback) as Hf by reflexivity.
    rewrite Hf in Hr. injection Hr as <-.
    by exists ["Needs manual review"].
Defined.

End processor_more.

(** ** The clustering script: loading, batching, merging, remapping *)

Section clustering_load.
Import PyStr Clustering.









End clustering_load.

Section clustering_more.
Import Clustering.

Lemma join_chunks {A} (l : list A) n k :
  mjoin ((λ i, take n (drop (i * n) l)) <$> seq 0 k) = take (k * n) l.
Proof.
  induction k as [|k IH]; [done|].
  rewrite seq_S, fmap_app, join_app, IH. simpl. rewrite app_nil_r.
  rewrite take_take_drop. f_equal. lia.
Qed.

(** The batches split the list of issues: put end to end they give the
    list back, so every issue is sent in one batch and none is left out;
    each batch has at least one issue and at most [BATCH_SIZE], and an
    empty list gives no batch. *)
Theorem batches_partition (all_issues : list string) :
  mjoin (batches all_issues) = all_issues ∧
  Forall (λ batch_issues, 1 ≤ length batch_issues ≤ BATCH_SIZE)
    (batches all_issues) ∧
  (all_issues = [] → batches all_issues = []).
Proof.
  unfold batches, BATCH_SIZE.
  set (k := (length all_issues + (500 - 1)) / 500).
  assert (length all_issues ≤ k * 500 < length all_issues + 500) as Hk.
  { pose proof (Nat.div_mod_eq (length all_issues + (500 - 1)) 500).
    pose proof (Nat.mod_upper_bound (length all_issues + (500 - 1)) 500).
    fold k in H. lia. }
  split; [|split].
  - rewrite join_chunks. apply take_ge. lia.
  - apply Forall_fmap, Forall_forall. intros i Hi%elem_of_seq. simpl.
    rewrite length_take, length_drop. lia.
  - intros ->. by vm_compute.
Qed.

Lemma add_group_categories st g :
  all_categories (add_group st g) = {[category g]} ∪ all_categories st.
Proof. done. Qed.

Lemma add_groups_categories groups st cat :
  cat ∈ all_categories (foldl add_group st groups) ↔
  cat ∈ all_categories st ∨ ∃ g, g ∈ groups ∧ category g = cat.
Proof.
  revert st. induction groups as [|g groups IH]; intros st.
  - simpl. split; [by left|]. intros [?|(g & Hg & _)]; [done|].
    by apply elem_of_nil in Hg.
  - cbn [foldl]. rewrite IH, add_group_categories, elem_of_union,
      elem_of_singleton. split.
    + intros [[->|?]|(g' & ? & ?)]; [right|by left|right].
      * exists g. split; [left|done].
      * exists g'. split; [by right|done].
    + intros [?|(g' & [->|?]%elem_of_cons & ?)]; [by left; right| |].
      * by left; left.
      * right. by exists g'.
Qed.

Lemma add_batches_categories responses st cat :
  cat ∈ all_categories (foldl add_batch st responses) ↔
  cat ∈ all_categories st ∨
  ∃ groups g, Some groups ∈ responses ∧ g ∈ groups ∧ category g = cat.
Proof.
  revert st. induction responses as [|r responses IH]; intros st.
  - simpl. split; [by left|]. intros [?|(gs & g & Hg & _)]; [done|].
    by apply elem_of_nil in Hg.
  - cbn [foldl]. rewrite IH. destruct r as [groups|]; simpl.
    + rewrite add_groups_categories. split.
      * intros [[?|(g & ? & ?)]|(gs & g & ? & ? & ?)]; [by left|right..].
        -- exists groups, g. split; [left|done].
        -- exists gs, g. split; [by right|done].
      * intros [?|(gs & g & [[= ->]|?]%elem_of_cons & ? & ?)].
        -- by left; left.
        -- left; right. by exists g.
        -- right. by exists gs, g.
    + split.
      * intros [?|(gs & g & ? & ? & ?)]; [by left|right].
        exists gs, g. split; [by right|done].
      * intros [?|(gs & g & [?|?]%elem_of_cons & ? & ?)];
          [by left|done|right]. by exists gs, g.
Qed.

Lemma elem_of_writes responses issue cat :
  (issue, cat) ∈ writes responses ↔
  ∃ groups g, Some groups ∈ responses ∧ g ∈ groups ∧ category g = cat ∧
              issue ∈ take 200 (related_issues g).
Proof.
  unfold writes. rewrite list_elem_of_bind. split.
  - intros (r & (g & Hw & Hg)%list_elem_of_bind & Hr).
    apply list_elem_of_fmap in Hw as (i & [= -> ->] & Hi).
    destruct r as [groups|]; [|by apply elem_of_nil in Hg].
    by exists groups, g.
  - intros (groups & g & Hr & Hg & <- & Hi).
    exists (Some groups). split; [|done].
    apply list_elem_of_bind. exists g. split; [|done].
    apply list_elem_of_fmap. by exists issue.
Qed.

(** Where the entries of the two globals of pass 1 come from. An issue
    has a category exactly when it is among the first 200 related issues
    of a group of a batch whose answer parsed; its category is then the
    category of such a group, and is in [all_categories]; and
    [all_categories] holds exactly the categories of the groups of the
    parsed answers. Nothing ties the issues of the map to the issues that
    were sent. *)
Theorem grouping_provenance responses :
  let st := merge_responses responses in
  (∀ issue, is_Some (issue_to_category st !! issue) ↔
     ∃ groups g, Some groups ∈ responses ∧ g ∈ groups ∧
                 issue ∈ take 200 (related_issues g)) ∧
  (∀ issue cat, issue_to_category st !! issue = Some cat →
     cat ∈ all_categories st ∧
     ∃ groups g, Some groups ∈ responses ∧ g ∈ groups ∧
                 category g = cat ∧ issue ∈ take 200 (related_issues g)) ∧
  (∀ cat, cat ∈ all_categories st ↔
     ∃ groups g, Some groups ∈ responses ∧ g ∈ groups ∧ category g = cat).
Proof.
  intros st.
  assert (∀ cat, cat ∈ all_categories st ↔
     ∃ groups g, Some groups ∈ responses ∧ g ∈ groups ∧ category g = cat)
    as Hcats.
  { intros cat. unfold st, merge_responses.
    rewrite add_batches_categories. simpl. split; [|by right].
    intros [Hc|?]; [|done]. by apply not_elem_of_empty in Hc. }
  assert (∀ issue cat, issue_to_category st !! issue = Some cat →
     ∃ groups g, Some groups ∈ responses ∧ g ∈ groups ∧
                 category g = cat ∧ issue ∈ take 200 (related_issues g))
    as Hfrom.
  { intros issue cat. unfold st, merge_responses.
    rewrite add_batches_writes, foldl_assign_lookup. simpl.
    destruct (last _) as [[i c]|] eqn:Hlast; [|by rewrite lookup_empty].
    intros [= <-]. apply last_Some_elem_of in Hlast.
    apply list_elem_of_filter in Hlast as [Hi Hw]. simpl in Hi.
    subst i. by apply elem_of_writes. }
  split; [|split]; [|intros issue cat Hm|done].
  - intros issue. split.
    + intros [cat (gs & g & ? & ? & _ & ?)%Hfrom]. by exists gs, g.
    + intros (gs & g & Hr & Hg & Hi). unfold st, merge_responses.
      rewrite add_batches_writes, foldl_assign_lookup.
      destruct (last _) as [w|] eqn:Hlast; [by eexists|].
      apply last_None in Hlast.
      assert ((issue, category g) ∈
                filter (λ w, w.1 = issue) (writes responses)) as Hin.
      { apply list_elem_of_filter. split; [done|].
        apply elem_of_writes. by exists gs, g. }
      rewrite Hlast in Hin. by apply elem_of_nil in Hin.
  - destruct (Hfrom _ _ Hm) as (gs & g & ? & ? & ? & ?).
    split; [|by exists gs, g]. apply Hcats. by exists gs, g.
Qed.

(** When the answer of the consolidation does not parse, the remap
    changes nothing: every issue keeps the category of pass 1, also when
    that category is not in the set the fallback mapping is built from. *)
Theorem consolidation_fallback_identity categories issue_to_category :
  remap (consolidate_categories None categories) issue_to_category
  = issue_to_category.
Proof.
  unfold remap, consolidate_categories. apply map_eq. intros k.
  rewrite lookup_fmap. destruct (issue_to_category !! k) as [v|]; [|done].
  simpl. f_equal.
  destruct (set_to_map _ categories !! v) as [v'|] eqn:Hv; [|done].
  apply lookup_set_to_map in Hv as (y & _ & [= -> ->]); [done|].
  by intros y y' _ _ [= ->].
Qed.

(** The categories of a row after pass 2. The remap keeps the issues of
    the map and renames their categories: a category the mapping has an
    entry for gets the merged name, any other stays. The list
    [map_to_categories] gives for a row then holds, once each, the
    non-empty renamed categories of the issues of the row that pass 1
    placed; so it is never longer than the list of issues. *)
Theorem row_categories_after_consolidation
    category_mapping issue_to_category issues :
  let high_level_issues :=
    map_to_categories (remap category_mapping issue_to_category) issues in
  dom (remap category_mapping issue_to_category) = dom issue_to_category ∧
  NoDup high_level_issues ∧
  (∀ c, c ∈ high_level_issues ↔
        c ≠ "" ∧ ∃ issue v, issue ∈ issues ∧
                   issue_to_category !! issue = Some v ∧
                   c = default v (category_mapping !! v)) ∧
  length high_level_issues ≤ length issues.
Proof.
  intros hl. split; [apply dom_fmap_L|].
  split; [apply NoDup_map_to_categories|].
  assert (∀ c, c ∈ hl ↔
        c ≠ "" ∧ ∃ issue v, issue ∈ issues ∧
                   issue_to_category !! issue = Some v ∧
                   c = default v (category_mapping !! v)) as Hin.
  { intros c. unfold hl. rewrite elem_of_map_to_categories. unfold remap.
    split; intros [Hne H]; (split; [done|]).
    - destruct H as (issue & Hi & Hm). rewrite lookup_fmap in Hm.
      destruct (issue_to_category !! issue) as [v|] eqn:Hv; [|done].
      injection Hm as <-. by exists issue, v.
    - destruct H as (issue & v & Hi & Hv & ->). exists issue.
      split; [done|]. by rewrite lookup_fmap, Hv. }
  split; [done|].
  set (f := λ issue : string,
         default "" (remap category_mapping issue_to_category !! issue)).
  trans (length (f <$> issues)); [|by rewrite length_fmap].
  apply submseteq_length, NoDup_submseteq;
    [apply NoDup_map_to_categories|].
  intros c Hc. apply elem_of_map_to_categories in Hc as (_ & i & Hi & Hm).
  apply list_elem_of_fmap. exists i. split; [|done]. unfold f.
  by rewrite Hm.
Qed.

End clustering_more.
